(** * BaneIngestSwitcher: the OBS-facing logic of the component

    A shallow embedding of [src/BaneIngestSwitcher.tsx]: the React state
    of the component, the closures each render creates, the requests that
    are awaited on the OBS websocket and the server events, followed by
    the properties of connection loss, reconciliation of the active
    target, source discovery and media switching.

    Conventions.
    - A JavaScript string is a [string]; the empty string is the only
      falsy one.  [null] and [undefined] are [None].
    - A function of the component closes over the state variables of the
      render that created it.  Such a function takes that render's values
      as a [Render]; refs ([obs], [selectedSourceRef]) are read from the
      live [State].
    - An [async] function is cut at its [await]: the part before it ends
      by emitting [Call request k], and [k] names the part that runs when
      the promise settles.
    - The state updates of one handler, or of one resumed function, are
      rendered together; then the effects whose dependencies changed run.
    - The link manager has a state of its own ([LinkState]); the id of a
      new link, drawn at random by the source, is an argument.  The
      connection form, local storage, import and export are not
      modelled.
    - Strings hold the UTF-8 encoding of the JavaScript string; only
      [isBlank] looks inside the characters.
    Line numbers are those of [src/BaneIngestSwitcher.tsx]. *)

From stdpp Require Import base gmap strings list.

(** ** Types *)

Record LinkItem := mkLink {
  id : string;
  link_name : string;
  url : string
}.

Record OBSSource := mkSource {
  name : string;
  kind : string
}.

(** An element of the [inputs] array of a [GetInputList] reply;
    [inputKind] is read [as string | null]. *)
Record Input := mkInput {
  inputName : string;
  inputKind : option string
}.

(** Values stored in the settings object sent with [SetInputSettings]. *)
Inductive JSValue :=
| JStr (s : string)
| JBool (b : bool).

#[global] Instance JSValue_eq_dec : EqDecision JSValue.
Proof. solve_decision. Defined.

#[global] Instance OBSSource_eq_dec : EqDecision OBSSource.
Proof. solve_decision. Defined.

#[global] Instance LinkItem_eq_dec : EqDecision LinkItem.
Proof. solve_decision. Defined.

(** ** Constants *)

Definition SUPPORTED_KINDS : gset string :=
  {[ "ffmpeg_source"; "vlc_source"; "browser_source" ]}.

(** ** JavaScript operators on strings *)

(** Truthiness of a value typed [string | undefined]. *)
Definition truthy (v : option string) : bool :=
  match v with
  | Some s => negb (bool_decide (s = ""))
  | None => false
  end.

(** [a || b] where [b] is a string. *)
Definition or_else (a : option string) (b : string) : string :=
  match a with
  | Some s => if bool_decide (s = "") then b else s
  | None => b
  end.

(** [s.startsWith(p)] *)
Definition startsWith (s p : string) : bool := String.prefix p s.

(** ** Requests, replies and suspended functions *)

Inductive Request :=
| Connect
| Disconnect
| GetInputList
| GetInputSettings (inputName : string)
| SetInputSettings (inputName : string) (inputSettings : gmap string JSValue)
                   (overlay : bool).

(** What a settled promise carries.  The settings of a [GetInputSettings]
    reply are kept as the string-valued fields, which is how the source
    reads them ([as string]). *)
Inductive Payload :=
| PVoid
| PInputList (inputs : list Input)
| PInputSettings (inputSettings : gmap string string) (inputKind : string).

Inductive Reply :=
| Resolved (v : Payload)
| Rejected (message : option string).

(** The state variables a closure of one render sees. *)
Record Render := mkRender {
  rIsConnected : bool;
  rSelectedSource : string;
  rSources : list OBSSource
}.

(** An async function suspended at its [await], with the variables that
    are in scope there. *)
Inductive Pending :=
| AwaitConnect (r : Render)                    (* connectToOBS, line 105 *)
| AwaitDisconnect                              (* disconnectOBS, line 140 *)
| AwaitGetInputSettings (sourceName : string)  (* fetchActiveState, line 161 *)
| AwaitGetInputList (r : Render)               (* fetchSources, line 189 *)
| AwaitSetInputSettings (link : LinkItem).     (* switchMedia, line 243 *)

Inductive Effect :=
| Alert (message : string)
| ConsoleError (message : string)
| Call (request : Request) (k : Pending).

(** ** Component state *)

(** [obs] is [obs.current]: [None] for [null], otherwise the socket
    object, of which the model keeps the listeners added by [on].  Each
    successful [connectToOBS] adds a [ConnectionClosed] and an
    [InputSettingsChanged] listener, both closures of the render that
    started the connection, so one [Render] stands for the pair. *)
Record State := mkState {
  isConnected : bool;
  connError : option string;
  isConnectPanelOpen : bool;
  sources : list OBSSource;
  selectedSource : string;
  currentSourceUrl : option string;
  obs : option (list Render);
  selectedSourceRef : string
}.

Definition render (st : State) : Render :=
  {| rIsConnected := isConnected st;
     rSelectedSource := selectedSource st;
     rSources := sources st |}.

(** ** Tasks: state passing with a log of effects *)

Definition Task (A : Type) : Type := State → A * State * list Effect.

#[global] Instance Task_ret : MRet Task := λ A a st, (a, st, []).

#[global] Instance Task_bind : MBind Task := λ A B f m st,
  let '(a, st1, es1) := m st in
  let '(b, st2, es2) := f a st1 in
  (b, st2, es1 ++ es2).

Definition skip : Task unit := mret ().

Definition get : Task State := λ st, (st, st, []).

Definition emit (e : Effect) : Task unit := λ st, ((), st, [e]).

Definition call (request : Request) (k : Pending) : Task unit :=
  emit (Call request k).

Definition alert (message : string) : Task unit := emit (Alert message).

Definition console_error (message : string) : Task unit :=
  emit (ConsoleError message).

(** The [useState] setters and the assignments to refs. *)

Definition setIsConnected (b : bool) : Task unit := λ st,
  ((), mkState b (connError st) (isConnectPanelOpen st) (sources st)
         (selectedSource st) (currentSourceUrl st) (obs st)
         (selectedSourceRef st), []).

Definition setConnError (e : option string) : Task unit := λ st,
  ((), mkState (isConnected st) e (isConnectPanelOpen st) (sources st)
         (selectedSource st) (currentSourceUrl st) (obs st)
         (selectedSourceRef st), []).

Definition setIsConnectPanelOpen (b : bool) : Task unit := λ st,
  ((), mkState (isConnected st) (connError st) b (sources st)
         (selectedSource st) (currentSourceUrl st) (obs st)
         (selectedSourceRef st), []).

Definition setSources (l : list OBSSource) : Task unit := λ st,
  ((), mkState (isConnected st) (connError st) (isConnectPanelOpen st) l
         (selectedSource st) (currentSourceUrl st) (obs st)
         (selectedSourceRef st), []).

Definition setSelectedSource (s : string) : Task unit := λ st,
  ((), mkState (isConnected st) (connError st) (isConnectPanelOpen st)
         (sources st) s (currentSourceUrl st) (obs st)
         (selectedSourceRef st), []).

Definition setCurrentSourceUrl (u : option string) : Task unit := λ st,
  ((), mkState (isConnected st) (connError st) (isConnectPanelOpen st)
         (sources st) (selectedSource st) u (obs st)
         (selectedSourceRef st), []).

Definition setObs (o : option (list Render)) : Task unit := λ st,
  ((), mkState (isConnected st) (connError st) (isConnectPanelOpen st)
         (sources st) (selectedSource st) (currentSourceUrl st) o
         (selectedSourceRef st), []).

Definition setSelectedSourceRef (s : string) : Task unit := λ st,
  ((), mkState (isConnected st) (connError st) (isConnectPanelOpen st)
         (sources st) (selectedSource st) (currentSourceUrl st) (obs st)
         s, []).

(** ** The component's functions *)

(** [fetchActiveState], lines 158-174, up to its [await].  It is created
    by [useCallback] with dependency [isConnected], so [r] is a render
    whose [isConnected] is the one the closure saw. *)
Definition fetchActiveState (r : Render) (sourceName : string) : Task unit :=
  st ← get;
  if bool_decide (obs st = None) || negb (rIsConnected r)
     || bool_decide (sourceName = "")
  then skip
  else call (GetInputSettings sourceName) (AwaitGetInputSettings sourceName).

(** Lines 163-169: the URL read from the settings, by kind. *)
Definition activeUrl (inputSettings : gmap string string) (inputKind : string)
  : string :=
  if bool_decide (inputKind = "browser_source")
  then or_else (inputSettings !! "url") ""
  else or_else (inputSettings !! "local_file")
               (or_else (inputSettings !! "url") "").

(** [fetchActiveState] from the settled [call] on.  A reply without the
    two fields makes the destructuring or the field access throw, which
    the [catch] swallows like a rejection. *)
Definition fetchActiveState_resume (reply : Reply) : Task unit :=
  match reply with
  | Resolved (PInputSettings inputSettings inputKind) =>
      setCurrentSourceUrl (Some (activeUrl inputSettings inputKind))
  | _ => skip
  end.

(** Lines 152-156.  [r] is the render whose [fetchActiveState] the closure
    refers to; the selection is read from the ref at call time. *)
Definition updateActiveStateIfMatches (r : Render) (changedInputName : string)
  : Task unit :=
  st ← get;
  if bool_decide (changedInputName = selectedSourceRef st)
  then fetchActiveState r changedInputName
  else skip.

(** Lines 190-195: the inputs of a supported kind, as sources. *)
Definition supported (input : Input) : bool :=
  match inputKind input with
  | Some kind => negb (bool_decide (kind = ""))
                 && bool_decide (kind ∈ SUPPORTED_KINDS)
  | None => false
  end.

(** The [map] of line 195; it only sees inputs that passed the filter, so
    the kind is there. *)
Definition toSource (input : Input) : OBSSource :=
  {| name := inputName input; kind := default "" (inputKind input) |}.

Definition mediaSources (inputs : list Input) : list OBSSource :=
  toSource <$> filter (λ input, supported input = true) inputs.

(** [l.find(s => s.name === n)] *)
Definition findSource (n : string) (l : list OBSSource) : option OBSSource :=
  List.find (λ s, bool_decide (name s = n)) l.

(** [fetchSources], lines 186-210, up to its [await]. *)
Definition fetchSources (r : Render) : Task unit :=
  st ← get;
  if bool_decide (obs st = None) || negb (rIsConnected r)
  then skip
  else call GetInputList (AwaitGetInputList r).

(** [fetchSources] from the settled [call] on.  The selection tested is
    the one of the closure, [rSelectedSource r].  A reply without [inputs]
    throws at [inputs.filter] and is logged like a rejection. *)
Definition fetchSources_resume (r : Render) (reply : Reply) : Task unit :=
  match reply with
  | Resolved (PInputList inputs) =>
      let mediaSources := mediaSources inputs in
      setSources mediaSources;;
      match mediaSources with
      | first :: _ =>
          if bool_decide (rSelectedSource r = "")
             || bool_decide (findSource (rSelectedSource r) mediaSources = None)
          then setSelectedSource (name first)
          else skip
      | [] => setSelectedSource ""
      end
  | _ => console_error "Failed to fetch sources"
  end.

(** [connectToOBS], lines 99-136, up to [await obs.current.connect]. *)
Definition connectToOBS (r : Render) : Task unit :=
  setConnError None;;
  st ← get;
  (if bool_decide (obs st = None) then setObs (Some []) else skip);;
  call Connect (AwaitConnect r).

(** [obs.current.on(...)] twice, lines 112-126. *)
Definition addListeners (r : Render) : Task unit :=
  st ← get;
  match obs st with
  | Some ls => setObs (Some (ls ++ [r]))
  | None => skip
  end.

(** [connectToOBS] from the settled [connect] on.  [fetchSources] is the
    one of the render that started the connection. *)
Definition connectToOBS_resume (r : Render) (reply : Reply) : Task unit :=
  match reply with
  | Resolved _ =>
      setIsConnected true;;
      setIsConnectPanelOpen false;;
      addListeners r;;
      fetchSources r
  | Rejected message =>
      console_error "OBS Connection failed";;
      setIsConnected false;;
      setConnError (Some (or_else message "Failed to connect. Check details."))
  end.

(** The [ConnectionClosed] listener, lines 112-116. *)
Definition onConnectionClosed : Task unit :=
  setIsConnected false;;
  setConnError (Some "Connection lost.");;
  setCurrentSourceUrl None.

(** The [InputSettingsChanged] listener, lines 118-126, added by the
    [connectToOBS] of render [r]. *)
Definition onInputSettingsChanged (r : Render) (inputName : string)
  : Task unit :=
  updateActiveStateIfMatches r inputName.

(** [disconnectOBS], lines 138-144. *)
Definition disconnectOBS : Task unit :=
  st ← get;
  if bool_decide (obs st = None) then skip
  else call Disconnect AwaitDisconnect.

Definition disconnectOBS_resume (reply : Reply) : Task unit :=
  match reply with
  | Resolved _ => setIsConnected false;; setCurrentSourceUrl None
  | Rejected _ => skip
  end.

(** Line 223. *)
Definition isNetworkLink (link : LinkItem) : bool :=
  startsWith (url link) "http" || startsWith (url link) "rtmp"
  || startsWith (url link) "srt" || startsWith (url link) "udp".

(** The [switch] on [source.kind], lines 224-240. *)
Definition settingsFor (source : OBSSource) (link : LinkItem)
  : gmap string JSValue :=
  if bool_decide (kind source = "ffmpeg_source")
     || bool_decide (kind source = "vlc_source")
  then {[ "local_file" := JStr (url link);
          "is_local_file" := JBool (negb (isNetworkLink link)) ]}
  else if bool_decide (kind source = "browser_source")
  then {[ "url" := JStr (url link) ]}
  else {[ "local_file" := JStr (url link); "url" := JStr (url link) ]}.

(** [switchMedia], lines 213-252, up to its [await].  It is created anew
    by every render, so [r] is the render the clicked button belongs to. *)
Definition switchMedia (r : Render) (link : LinkItem) : Task unit :=
  st ← get;
  if bool_decide (obs st = None) || negb (rIsConnected r)
     || bool_decide (rSelectedSource r = "")
  then skip
  else
    match findSource (rSelectedSource r) (rSources r) with
    | None =>
        alert "Source not found. Refreshing...";;
        fetchSources r
    | Some source =>
        call (SetInputSettings (rSelectedSource r) (settingsFor source link) true)
             (AwaitSetInputSettings link)
    end.

(** [`Failed to switch: ${error?.message}`] *)
Definition switchFailure (message : option string) : string :=
  "Failed to switch: " +:+ default "undefined" message.

Definition switchMedia_resume (link : LinkItem) (reply : Reply) : Task unit :=
  match reply with
  | Resolved _ => setCurrentSourceUrl (Some (url link))
  | Rejected message => alert (switchFailure message)
  end.

(** ** Effects run after a render *)

(** The two [useEffect]s on the selection, lines 150 and 177-183, for the
    render of [st] following the render of [prev].  The first depends on
    [selectedSource]; the second on [selectedSource], [isConnected] and
    [fetchActiveState], whose identity changes with [isConnected] only.
    State updates made within one handler are rendered together. *)
Definition useEffects (prev : State) : Task unit :=
  st ← get;
  let selectionChanged := negb (bool_decide (selectedSource prev = selectedSource st)) in
  let connectedChanged := negb (bool_decide (isConnected prev = isConnected st)) in
  (if selectionChanged then setSelectedSourceRef (selectedSource st) else skip);;
  if selectionChanged || connectedChanged
  then
    if negb (bool_decide (selectedSource st = "")) && isConnected st
    then fetchActiveState (render st) (selectedSource st)
    else setCurrentSourceUrl None
  else skip.

(** ** The component in its environment *)

(** [inflight] holds the suspended functions by request id; [trace] is
    everything emitted so far. *)
Record World := mkWorld {
  state : State;
  inflight : gmap nat Pending;
  nextId : nat;
  trace : list Effect
}.

Inductive Event :=
| ClickConnectButton                      (* isConnected ? disconnectOBS : connectToOBS *)
| ClickRefresh                            (* fetchSources *)
| ChangeSelect (value : string)           (* setSelectedSource(e.target.value) *)
| ClickLink (link : LinkItem)             (* switchMedia(link) *)
| ConnectionClosed
| InputSettingsChanged (inputName : string)
| Settle (rid : nat) (reply : Reply).

Definition resume (k : Pending) (reply : Reply) : Task unit :=
  match k with
  | AwaitConnect r => connectToOBS_resume r reply
  | AwaitDisconnect => disconnectOBS_resume reply
  | AwaitGetInputSettings _ => fetchActiveState_resume reply
  | AwaitGetInputList r => fetchSources_resume r reply
  | AwaitSetInputSettings link => switchMedia_resume link reply
  end.

(** Run [f] for every element, in order. *)
Fixpoint forEach {A} (f : A → Task unit) (l : list A) : Task unit :=
  match l with
  | [] => skip
  | x :: l => f x;; forEach f l
  end.

Definition listenersOf (st : State) : list Render := default [] (obs st).

(** The handler an event runs, as a closure of the current render. *)
Definition handler (w : World) (e : Event) : Task unit :=
  let st := state w in
  match e with
  | ClickConnectButton =>
      if isConnected st then disconnectOBS else connectToOBS (render st)
  | ClickRefresh => fetchSources (render st)
  | ChangeSelect value => setSelectedSource value
  | ClickLink link => switchMedia (render st) link
  | ConnectionClosed => forEach (λ _, onConnectionClosed) (listenersOf st)
  | InputSettingsChanged inputName =>
      forEach (λ r, onInputSettingsChanged r inputName) (listenersOf st)
  | Settle rid reply =>
      match inflight w !! rid with
      | Some k => resume k reply
      | None => skip
      end
  end.

(** Give each emitted [Call] the next request id. *)
Fixpoint register (es : list Effect) (m : gmap nat Pending) (n : nat)
  : gmap nat Pending * nat :=
  match es with
  | [] => (m, n)
  | Call _ k :: es => register es (<[n := k]> m) (S n)
  | _ :: es => register es m n
  end.

Definition settled (e : Event) (m : gmap nat Pending) : gmap nat Pending :=
  match e with
  | Settle rid _ => delete rid m
  | _ => m
  end.

(** One event: its handler, the render, the effects of the render. *)
Definition step (w : World) (e : Event) : World :=
  let '(_, st, es) := (handler w e;; useEffects (state w)) (state w) in
  let '(m, n) := register es (settled e (inflight w)) (nextId w) in
  {| state := st; inflight := m; nextId := n; trace := trace w ++ es |}.

Definition run (w : World) (es : list Event) : World := foldl step w es.

(** The component after mounting: [obs.current = new OBSWebSocket()], no
    selection, hence no active URL. *)
Definition mounted : World :=
  {| state := {| isConnected := false; connError := None;
                 isConnectPanelOpen := true; sources := [];
                 selectedSource := ""; currentSourceUrl := None;
                 obs := Some []; selectedSourceRef := "" |};
     inflight := ∅; nextId := 0; trace := [] |}.

Inductive reachable : World → Prop :=
| reachable_mounted : reachable mounted
| reachable_step w e : reachable w → reachable (step w e).

(** ** A session used in the examples *)

Definition inputsAB : list Input :=
  [ mkInput "A" (Some "ffmpeg_source");
    mkInput "Mic" (Some "wasapi_input_capture");
    mkInput "B" (Some "browser_source") ].

Definition connectedAB : World :=
  run mounted
    [ ClickConnectButton; Settle 0 (Resolved PVoid);
      ClickRefresh; Settle 1 (Resolved (PInputList inputsAB)) ].

(** ** Worlds and predicates used in the statements *)

Definition linkX : LinkItem := mkLink "k3x9f2a" "Stream X" "rtmp://x".

(** What [switchMedia] lets its caller or the user see: the messages it
    shows or logs.  Its promise resolves to [undefined] on every path. *)
Definition reportOf (e : Effect) : option string :=
  match e with
  | Alert message | ConsoleError message => Some message
  | Call _ _ => None
  end.

Definition reported (es : list Effect) : list string := omap reportOf es.

(** A world that lost its connection while "A" was selected, and one that
    is connected but has no selection yet. *)
Definition lostAB : World := step connectedAB ConnectionClosed.

Definition connectedNoSelection : World :=
  run mounted [ ClickConnectButton; Settle 0 (Resolved PVoid) ].

(** The selection raced a refresh: "B" was chosen while a refresh started
    under selection "A" was in flight, and the reply lists "A" only. *)
Definition racedRefresh : World :=
  run connectedAB
    [ ClickRefresh; ChangeSelect "B";
      Settle 3 (Resolved (PInputList [mkInput "A" (Some "ffmpeg_source")])) ].

Definition replyA (file : string) : Reply :=
  Resolved (PInputSettings {[ "local_file" := file ]} "ffmpeg_source").

Definition replyB (page : string) : Reply :=
  Resolved (PInputSettings {[ "url" := page ]} "browser_source").

(** "B" was selected while the fetch for "A" was in flight, and the reply
    for "B" has arrived. *)
Definition switchedToB : World :=
  run connectedAB [ ChangeSelect "B"; Settle 3 (replyB "https://b") ].

(** "A" was selected, left and selected again; the second fetch for "A"
    has been answered, the first one not yet. *)
Definition fetchedATwice : World :=
  run connectedAB
    [ ChangeSelect "B"; ChangeSelect "A";
      Settle 3 (replyB "https://b"); Settle 4 (replyA "rtmp://new") ].

(** "A" showed "rtmp://a"; then "B", which the server has removed
    meanwhile, was selected, and its settings are being fetched. *)
Definition selectedRemovedB : World :=
  run connectedAB [ Settle 2 (replyA "rtmp://a"); ChangeSelect "B" ].

(** The events that end a session: [ConnectionClosed] reaching a listener,
    and [disconnectOBS] resuming after [disconnect()]. *)
Definition endsSession (w : World) (e : Event) : Prop :=
  match e with
  | ConnectionClosed => listenersOf (state w) ≠ []
  | Settle rid (Resolved _) => inflight w !! rid = Some AwaitDisconnect
  | _ => False
  end.

Definition closed (st : State) : State := (onConnectionClosed st).1.2.

(** A suspended [connectToOBS] will add listeners that are closures of
    its render; it is harmless to the property below when that render was
    not connected. *)
Definition stalePending (k : Pending) : Prop :=
  match k with
  | AwaitConnect r => rIsConnected r = false
  | _ => True
  end.

Definition staleEffect (e : Effect) : Prop :=
  match e with
  | Call _ k => stalePending k
  | _ => True
  end.

Definition listenersStale (st : State) : Prop :=
  Forall (λ r, rIsConnected r = false) (listenersOf st).

(** A task keeps every listener a closure of a render that was not
    connected, does not write [selectedSourceRef], and suspends no
    [connectToOBS] of a connected render. *)
Definition keeps {A} (t : Task A) : Prop :=
  ∀ st, listenersStale st →
    listenersStale (t st).1.2
    ∧ selectedSourceRef (t st).1.2 = selectedSourceRef st
    ∧ Forall staleEffect (t st).2.

(** What holds in every reachable world. *)
Record invariant (w : World) : Prop := {
  inv_listeners : listenersStale (state w);
  inv_inflight : map_Forall (λ _, stalePending) (inflight w);
  inv_ref : selectedSourceRef (state w) = selectedSource (state w)
}.

(** The fetch of "A" started by its selection has been answered. *)
Definition showingA : World := step connectedAB (Settle 2 (replyA "rtmp://a")).

(** Then a link is clicked and the switch succeeds. *)
Definition switchedToX : World :=
  run showingA [ ClickLink linkX; Settle 3 (Resolved PVoid) ].

(** ** Further predicates and worlds *)

(** The invariant of the cached list and the socket: the socket object
    exists and every cached source is of a supported kind. *)
Definition cacheSupported (st : State) : Prop :=
  obs st ≠ None ∧ Forall (λ s, kind s ∈ SUPPORTED_KINDS) (sources st).

(** A task keeps a property of the state. *)
Definition preserves (P : State → Prop) {A} (t : Task A) : Prop :=
  ∀ st, P st → P (t st).1.2.

(** Requests the component is meant to send: an input is named by a
    non-empty string, and settings are merged, not replaced. *)
Definition wellFormedRequest (request : Request) : Prop :=
  match request with
  | GetInputSettings n => n ≠ ""
  | SetInputSettings n _ overlay => n ≠ "" ∧ overlay = true
  | _ => True
  end.

Definition wellFormedEffect (e : Effect) : Prop :=
  match e with
  | Call request _ => wellFormedRequest request
  | _ => True
  end.

(** A task emits well-formed requests only. *)
Definition emitsWellFormed {A} (t : Task A) : Prop :=
  ∀ st, Forall wellFormedEffect (t st).2.

(** The settings of a reply hold every string field that was sent, with
    the value sent. *)
Definition stringOf (v : JSValue) : option string :=
  match v with
  | JStr s => Some s
  | JBool _ => None
  end.

Definition echoes (reply : gmap string string) (sent : gmap string JSValue)
  : Prop :=
  omap stringOf sent ⊆ reply.

#[global] Instance echoes_dec reply sent : Decision (echoes reply sent).
Proof. unfold echoes, subseteq, map_subseteq, map_included. apply _. Defined.

(** Worlds used in the witnesses: a connection being opened; a first
    refresh in flight; a refresh in flight with "A" selected; the
    connection lost while a switch and a fetch were in flight. *)
Definition connecting : World := step mounted ClickConnectButton.

Definition refreshing : World := step connectedNoSelection ClickRefresh.

Definition refreshingAB : World := step connectedAB ClickRefresh.

Definition lostWhileSwitching : World :=
  run connectedAB [ ClickLink linkX; ConnectionClosed ].

(** ** Link management *)

(** The code points [trim] removes (ECMAScript WhiteSpace and
    LineTerminator), by the bytes of their UTF-8 encoding: TAB, LF, VT,
    FF, CR, SP; U+00A0; U+1680, U+2000 to U+200A, U+2028, U+2029, U+202F,
    U+205F, U+3000, U+FEFF. *)
Definition whiteSpace1 (a : N) : bool :=
  bool_decide (a ∈ [9; 10; 11; 12; 13; 32]%N).

Definition whiteSpace2 (a b : N) : bool :=
  bool_decide (a = 194%N ∧ b = 160%N).

Definition whiteSpace3 (a b c : N) : bool :=
  bool_decide ((a, b, c) ∈ [(225, 154, 128); (226, 128, 168); (226, 128, 169);
                            (226, 128, 175); (226, 129, 159); (227, 128, 128);
                            (239, 187, 191)]%N)
  || bool_decide (a = 226%N ∧ b = 128%N ∧ (128 ≤ c ≤ 138)%N).

Fixpoint allWhiteSpace (l : list N) : bool :=
  match l with
  | [] => true
  | a :: l1 =>
      if whiteSpace1 a then allWhiteSpace l1
      else match l1 with
           | b :: l2 =>
               if whiteSpace2 a b then allWhiteSpace l2
               else match l2 with
                    | c :: l3 => whiteSpace3 a b c && allWhiteSpace l3
                    | [] => false
                    end
           | [] => false
           end
  end.

(** [!s.trim()]: the string is empty once trimmed. *)
Definition isBlank (s : string) : bool :=
  allWhiteSpace (Ascii.N_of_ascii <$> String.list_ascii_of_string s).

(** The state of the link manager, lines 58-61. *)
Record LinkState := mkLinkState {
  links : list LinkItem;
  editingLinkId : option string;
  tempName : string;
  tempUrl : string
}.

(** [handleAddLink], lines 255-260; [newId] is the id drawn by
    [Math.random().toString(36).substring(2, 9)]. *)
Definition handleAddLink (newId : string) (s : LinkState) : LinkState :=
  if isBlank (tempName s) || isBlank (tempUrl s) then s
  else {| links := links s ++ [mkLink newId (tempName s) (tempUrl s)];
          editingLinkId := editingLinkId s;
          tempName := ""; tempUrl := "" |}.

(** [handleDeleteLink], lines 262-264. *)
Definition handleDeleteLink (i : string) (s : LinkState) : LinkState :=
  {| links := filter (λ l, id l ≠ i) (links s);
     editingLinkId := editingLinkId s;
     tempName := tempName s; tempUrl := tempUrl s |}.

(** [startEditing], lines 266-270. *)
Definition startEditing (link : LinkItem) (s : LinkState) : LinkState :=
  {| links := links s;
     editingLinkId := Some (id link);
     tempName := link_name link; tempUrl := url link |}.

(** [saveEditing], lines 272-277. *)
Definition saveEditing (s : LinkState) : LinkState :=
  {| links := (λ l, if bool_decide (Some (id l) = editingLinkId s)
                    then mkLink (id l) (tempName s) (tempUrl s) else l)
                <$> links s;
     editingLinkId := None;
     tempName := ""; tempUrl := "" |}.

(** The two text inputs, lines 506 and 516. *)
Definition typeName (n : string) (s : LinkState) : LinkState :=
  {| links := links s; editingLinkId := editingLinkId s;
     tempName := n; tempUrl := tempUrl s |}.

Definition typeUrl (u : string) (s : LinkState) : LinkState :=
  {| links := links s; editingLinkId := editingLinkId s;
     tempName := tempName s; tempUrl := u |}.

(** Two links, and a third one typed into the form. *)
Definition linksAB : LinkState :=
  {| links := [mkLink "a1" "Cam" "rtmp://cam"; mkLink "b2" "Clip" "C:\clip.mp4"];
     editingLinkId := None; tempName := " Page "; tempUrl := "https://page" |}.

(** * Properties *)

(** ** Strings *)

Lemma prefix_app (p s : string) :
  String.prefix p s = true ↔ ∃ rest, s = p +:+ rest.
Proof.
  revert s. induction p as [|a p IH]; intros s.
  - destruct s; split; eauto.
  - destruct s as [|b s].
    + split; [done | intros [rest H]; discriminate].
    + change (String.prefix (String a p) (String b s))
        with (if Ascii.ascii_dec a b then String.prefix p s else false).
      destruct (Ascii.ascii_dec a b) as [->|Hne].
      * rewrite IH. split; intros [rest H]; exists rest.
        -- by rewrite H.
        -- by injection H.
      * split; [done | intros [rest H]; by injection H].
Qed.

Lemma isNetworkLink_spec (link : LinkItem) :
  isNetworkLink link = true ↔
  ∃ p rest, p ∈ ["http"; "rtmp"; "srt"; "udp"] ∧ url link = p +:+ rest.
Proof.
  unfold isNetworkLink, startsWith.
  rewrite !orb_true_iff, !prefix_app. split.
  - intros [[[[rest H]|[rest H]]|[rest H]]|[rest H]];
      eexists _, rest; (split; [|exact H]); set_solver.
  - intros (p & rest & Hp & H).
    rewrite !elem_of_cons in Hp.
    destruct Hp as [->|[->|[->|[->|Hp]]]]; [eauto 6 .. |].
    by apply elem_of_nil in Hp.
Qed.

(** ** Lists of sources *)

Lemma findSource_None (n : string) (l : list OBSSource) :
  findSource n l = None ↔ n ∉ name <$> l.
Proof.
  unfold findSource. induction l as [|s l IH]; simpl.
  - split; [intros _; apply not_elem_of_nil | done].
  - rewrite not_elem_of_cons. case_bool_decide as Hs.
    + split; [done | intros [Hne _]; congruence].
    + rewrite IH. split; [by split | by intros [_ H]].
Qed.

Lemma findSource_Some (n : string) (l : list OBSSource) (s : OBSSource) :
  findSource n l = Some s → s ∈ l ∧ name s = n.
Proof.
  unfold findSource. induction l as [|s' l IH]; simpl; [done|].
  case_bool_decide as Hs.
  - intros [= <-]. split; [left | done].
  - intros H. destruct (IH H). split; [by right | done].
Qed.

Lemma empty_not_supported : "" ∉ SUPPORTED_KINDS.
Proof. apply (bool_decide_unpack _). by vm_compute. Qed.

Lemma supported_spec (input : Input) :
  supported input = true ↔ ∃ k, inputKind input = Some k ∧ k ∈ SUPPORTED_KINDS.
Proof.
  unfold supported. destruct (inputKind input) as [k|].
  - rewrite andb_true_iff, negb_true_iff, bool_decide_eq_false, bool_decide_eq_true.
    split.
    + intros [_ H]. eauto.
    + intros (k' & [= <-] & H). split; [|done].
      intros ->. by apply empty_not_supported.
  - split; [done | intros (k & [=] & _)].
Qed.

Lemma mediaSources_supported (inputs : list Input) (s : OBSSource) :
  s ∈ mediaSources inputs → kind s ∈ SUPPORTED_KINDS.
Proof.
  unfold mediaSources. intros (input & -> & Hin)%list_elem_of_fmap.
  apply list_elem_of_filter in Hin as [Hs _].
  apply supported_spec in Hs as (k & Hk & Hin). simpl. by rewrite Hk.
Qed.

(** ** Running tasks *)

Ltac task :=
  unfold mbind, Task_bind, mret, Task_ret, get, skip, call, alert,
    console_error, emit; cbn.

Ltac branch :=
  repeat match goal with
         | |- context [if ?b then _ else _] => destruct b eqn:?; task
         end.

Lemma bind_run {A B} (m : Task A) (f : A → Task B) (st : State) a st1 es1 b st2 es2 :
  m st = (a, st1, es1) → f a st1 = (b, st2, es2) →
  (m ≫= f) st = (b, st2, es1 ++ es2).
Proof. intros Hm Hf. unfold mbind, Task_bind. by rewrite Hm, Hf. Qed.

(** A render that changes neither the selection nor the connection flag
    runs no effect. *)
Lemma useEffects_same (prev st : State) :
  selectedSource prev = selectedSource st →
  isConnected prev = isConnected st →
  useEffects prev st = ((), st, []).
Proof.
  intros Hs Hc. unfold useEffects. task.
  by rewrite (bool_decide_eq_true_2 _ Hs), (bool_decide_eq_true_2 _ Hc).
Qed.

(** The effects never touch the source list, the selection, the socket,
    the connection flag or the connection error. *)
Lemma useEffects_frame (prev st : State) :
  let st' := (useEffects prev st).1.2 in
  isConnected st' = isConnected st ∧ sources st' = sources st
  ∧ selectedSource st' = selectedSource st ∧ obs st' = obs st
  ∧ connError st' = connError st.
Proof. unfold useEffects, fetchActiveState. task. branch; done. Qed.

Lemma step_run (w : World) (e : Event) st es st' es' :
  handler w e (state w) = ((), st, es) →
  useEffects (state w) st = ((), st', es') →
  step w e =
    {| state := st';
       inflight := (register (es ++ es') (settled e (inflight w)) (nextId w)).1;
       nextId := (register (es ++ es') (settled e (inflight w)) (nextId w)).2;
       trace := trace w ++ es ++ es' |}.
Proof.
  intros Hh He. unfold step. rewrite (bind_run _ _ _ _ _ _ _ _ _ Hh He).
  by destruct (register _ _ _).
Qed.

Lemma step_quiet (w : World) (e : Event) st es :
  handler w e (state w) = ((), st, es) →
  selectedSource (state w) = selectedSource st →
  isConnected (state w) = isConnected st →
  step w e =
    {| state := st;
       inflight := (register es (settled e (inflight w)) (nextId w)).1;
       nextId := (register es (settled e (inflight w)) (nextId w)).2;
       trace := trace w ++ es |}.
Proof.
  intros Hh Hs Hc.
  rewrite (step_run _ _ _ _ _ _ Hh (useEffects_same _ _ Hs Hc)).
  by rewrite app_nil_r.
Qed.

(** ** Switching *)

Lemma switchMedia_guard (r : Render) (link : LinkItem) (st : State) :
  obs st = None ∨ rIsConnected r = false ∨ rSelectedSource r = "" →
  switchMedia r link st = ((), st, []).
Proof.
  intros H. unfold switchMedia. task.
  destruct H as [H|[H|H]]; rewrite H; cbn; rewrite ?orb_true_r; done.
Qed.

Lemma switchMedia_found (r : Render) (link : LinkItem) (st : State) source :
  obs st ≠ None → rIsConnected r = true → rSelectedSource r ≠ "" →
  findSource (rSelectedSource r) (rSources r) = Some source →
  switchMedia r link st =
    ((), st, [Call (SetInputSettings (rSelectedSource r)
                      (settingsFor source link) true)
                   (AwaitSetInputSettings link)]).
Proof.
  intros Ho Hc Hs Hf. unfold switchMedia. task.
  rewrite Hc, Hf, !bool_decide_eq_false_2 by done. reflexivity.
Qed.

Lemma switchMedia_not_found (r : Render) (link : LinkItem) (st : State) :
  obs st ≠ None → rIsConnected r = true → rSelectedSource r ≠ "" →
  findSource (rSelectedSource r) (rSources r) = None →
  switchMedia r link st =
    ((), st, [Alert "Source not found. Refreshing...";
              Call GetInputList (AwaitGetInputList r)]).
Proof.
  intros Ho Hc Hs Hf. unfold switchMedia, fetchSources. task.
  rewrite Hc, Hf, !bool_decide_eq_false_2 by done. cbn.
  rewrite bool_decide_eq_false_2 by done. reflexivity.
Qed.

(** C5.  The request [switchMedia] sends for a source of the cached list
    carries, for [ffmpeg_source] and [vlc_source], exactly [local_file]
    (the link's URL) and [is_local_file] (the URL is not a network link);
    for [browser_source], exactly [url]; for any other kind, [local_file]
    and [url], both the link's URL.  A link is a network link iff its URL
    starts with http, rtmp, srt or udp. *)
Theorem switchMedia_settings_by_kind
    (r : Render) (link : LinkItem) (st : State) (source : OBSSource) :
  obs st ≠ None → rIsConnected r = true → rSelectedSource r ≠ "" →
  findSource (rSelectedSource r) (rSources r) = Some source →
  ∃ settings,
    (switchMedia r link st).2 =
      [Call (SetInputSettings (rSelectedSource r) settings true)
            (AwaitSetInputSettings link)]
    ∧ (kind source = "ffmpeg_source" ∨ kind source = "vlc_source" →
       settings = {[ "local_file" := JStr (url link);
                     "is_local_file" := JBool (negb (isNetworkLink link)) ]})
    ∧ (kind source = "browser_source" →
       settings = {[ "url" := JStr (url link) ]})
    ∧ (kind source ∉ SUPPORTED_KINDS →
       settings = {[ "local_file" := JStr (url link);
                     "url" := JStr (url link) ]})
    ∧ (isNetworkLink link = true ↔
       ∃ p rest, p ∈ ["http"; "rtmp"; "srt"; "udp"] ∧ url link = p +:+ rest).
Proof.
  intros Ho Hc Hs Hf. exists (settingsFor source link).
  rewrite (switchMedia_found _ _ _ _ Ho Hc Hs Hf).
  split; [done|]. unfold settingsFor. repeat split.
  - intros [->| ->]; by cbn.
  - intros ->; by cbn.
  - intros Hk. rewrite !bool_decide_eq_false_2; [done | ..];
      intros Heq; apply Hk; rewrite Heq; by apply (bool_decide_unpack _).
  - by apply isNetworkLink_spec.
  - by apply isNetworkLink_spec.
Qed.

Lemma switchMedia_settings_by_kind_witness :
  let st := state connectedAB in
  let r := render st in
  (obs st ≠ None ∧ rIsConnected r = true ∧ rSelectedSource r ≠ ""
   ∧ findSource (rSelectedSource r) (rSources r)
     = Some (mkSource "A" "ffmpeg_source"))
  ∧ ∃ settings,
    (switchMedia r linkX st).2 =
      [Call (SetInputSettings (rSelectedSource r) settings true)
            (AwaitSetInputSettings linkX)]
    ∧ (kind (mkSource "A" "ffmpeg_source") = "ffmpeg_source"
       ∨ kind (mkSource "A" "ffmpeg_source") = "vlc_source" →
       settings = {[ "local_file" := JStr (url linkX);
                     "is_local_file" := JBool (negb (isNetworkLink linkX)) ]})
    ∧ (kind (mkSource "A" "ffmpeg_source") = "browser_source" →
       settings = {[ "url" := JStr (url linkX) ]})
    ∧ (kind (mkSource "A" "ffmpeg_source") ∉ SUPPORTED_KINDS →
       settings = {[ "local_file" := JStr (url linkX);
                     "url" := JStr (url linkX) ]})
    ∧ (isNetworkLink linkX = true ↔
       ∃ p rest, p ∈ ["http"; "rtmp"; "srt"; "udp"] ∧ url linkX = p +:+ rest).
Proof.
  split; [by vm_compute|].
  apply (switchMedia_settings_by_kind (render (state connectedAB)) linkX
           (state connectedAB) (mkSource "A" "ffmpeg_source"));
    by vm_compute.
Defined.

(** C6, as stated, fails: without a connection and without a selection
    [switchMedia] reports nothing, and the two outcomes are the same. *)
Lemma switchMedia_guard_reports_nothing :
  let stD := state lostAB in
  let stN := state connectedNoSelection in
  (isConnected stD = false ∧ selectedSource stD = "A")
  ∧ (isConnected stN = true ∧ selectedSource stN = "")
  ∧ reported (switchMedia (render stD) linkX stD).2 = []
  ∧ reported (switchMedia (render stN) linkX stN).2 = []
  ∧ (switchMedia (render stD) linkX stD).1.1 = (switchMedia (render stN) linkX stN).1.1
  ∧ (switchMedia (render stD) linkX stD).2 = (switchMedia (render stN) linkX stN).2.
Proof. by vm_compute. Qed.

(** C6, amended.  Without a socket, without a connection or without a
    selection, [switchMedia] returns at once: no request, no message, no
    change of state. *)
Theorem switchMedia_guard_silent (r : Render) (link : LinkItem) (st : State) :
  obs st = None ∨ rIsConnected r = false ∨ rSelectedSource r = "" →
  switchMedia r link st = ((), st, []).
Proof. apply switchMedia_guard. Qed.

Lemma switchMedia_guard_silent_witness :
  (obs (state lostAB) = None ∨ rIsConnected (render (state lostAB)) = false
   ∨ rSelectedSource (render (state lostAB)) = "")
  ∧ switchMedia (render (state lostAB)) linkX (state lostAB)
    = ((), state lostAB, []).
Proof.
  split; [right; left; by vm_compute|].
  apply (switchMedia_guard_silent (render (state lostAB)) linkX (state lostAB)).
  right; left; by vm_compute.
Defined.

(** ** Settling a request *)

Lemma handler_settle (w : World) rid k reply :
  inflight w !! rid = Some k →
  handler w (Settle rid reply) = resume k reply.
Proof. intros H. unfold handler. by rewrite H. Qed.

Lemma settle_switch (w : World) rid link reply :
  inflight w !! rid = Some (AwaitSetInputSettings link) →
  step w (Settle rid reply) =
    {| state := (switchMedia_resume link reply (state w)).1.2;
       inflight := delete rid (inflight w);
       nextId := nextId w;
       trace := trace w ++ (switchMedia_resume link reply (state w)).2 |}.
Proof.
  intros H.
  rewrite (step_quiet w _ (switchMedia_resume link reply (state w)).1.2
             (switchMedia_resume link reply (state w)).2).
  - by destruct reply.
  - rewrite (handler_settle _ _ _ _ H). by destruct reply.
  - by destruct reply.
  - by destruct reply.
Qed.

Lemma settle_fetchActiveState (w : World) rid sourceName reply :
  inflight w !! rid = Some (AwaitGetInputSettings sourceName) →
  step w (Settle rid reply) =
    {| state := (fetchActiveState_resume reply (state w)).1.2;
       inflight := delete rid (inflight w);
       nextId := nextId w;
       trace := trace w |}.
Proof.
  intros H.
  rewrite (step_quiet w _ (fetchActiveState_resume reply (state w)).1.2 []).
  - by rewrite app_nil_r.
  - rewrite (handler_settle _ _ _ _ H). by destruct reply as [[]|].
  - by destruct reply as [[]|].
  - by destruct reply as [[]|].
Qed.

Lemma click_link_found (w : World) (link : LinkItem) (source : OBSSource) :
  obs (state w) ≠ None → isConnected (state w) = true →
  selectedSource (state w) ≠ "" →
  findSource (selectedSource (state w)) (sources (state w)) = Some source →
  step w (ClickLink link) =
    {| state := state w;
       inflight := <[nextId w := AwaitSetInputSettings link]> (inflight w);
       nextId := S (nextId w);
       trace := trace w ++
         [Call (SetInputSettings (selectedSource (state w))
                  (settingsFor source link) true)
               (AwaitSetInputSettings link)] |}.
Proof.
  intros Ho Hc Hs Hf.
  by rewrite (step_quiet w (ClickLink link) _ _
    (switchMedia_found (render (state w)) link (state w) source Ho Hc Hs Hf)).
Qed.

(** C7.  When the guards pass and the selected source is in the cached
    list, a click on a link sends [SetInputSettings] with [overlay: true]
    and changes no state.  When that request resolves, [currentSourceUrl]
    is the link's URL; when it is rejected, [currentSourceUrl] is what it
    was before the click and the failure is shown in an alert. *)
Theorem switchMedia_optimistic_update
    (w : World) (link : LinkItem) (source : OBSSource) :
  obs (state w) ≠ None → isConnected (state w) = true →
  selectedSource (state w) ≠ "" →
  findSource (selectedSource (state w)) (sources (state w)) = Some source →
  let w1 := step w (ClickLink link) in
  let rid := nextId w in
  state w1 = state w
  ∧ trace w1 = trace w ++
      [Call (SetInputSettings (selectedSource (state w))
               (settingsFor source link) true)
            (AwaitSetInputSettings link)]
  ∧ inflight w1 !! rid = Some (AwaitSetInputSettings link)
  ∧ (∀ v, currentSourceUrl (state (step w1 (Settle rid (Resolved v))))
          = Some (url link))
  ∧ (∀ message,
       let w2 := step w1 (Settle rid (Rejected message)) in
       currentSourceUrl (state w2) = currentSourceUrl (state w)
       ∧ trace w2 = trace w1 ++ [Alert (switchFailure message)]).
Proof.
  intros Ho Hc Hs Hf w1 rid. subst w1 rid.
  rewrite (click_link_found w link source Ho Hc Hs Hf).
  match goal with |- context [step ?w' _] => set (w1 := w') end.
  assert (Hl : inflight w1 !! nextId w = Some (AwaitSetInputSettings link))
    by apply lookup_insert_eq.
  repeat split; [done | ..].
  - intros v. by rewrite (settle_switch w1 _ link _ Hl).
  - by rewrite (settle_switch w1 _ link _ Hl).
  - by rewrite (settle_switch w1 _ link _ Hl).
Qed.

Lemma switchMedia_optimistic_update_witness :
  let w := connectedAB in
  let w1 := step w (ClickLink linkX) in
  (obs (state w) ≠ None ∧ isConnected (state w) = true
   ∧ selectedSource (state w) ≠ ""
   ∧ findSource (selectedSource (state w)) (sources (state w))
     = Some (mkSource "A" "ffmpeg_source"))
  ∧ state w1 = state w
  ∧ trace w1 = trace w ++
      [Call (SetInputSettings (selectedSource (state w))
               (settingsFor (mkSource "A" "ffmpeg_source") linkX) true)
            (AwaitSetInputSettings linkX)]
  ∧ inflight w1 !! nextId w = Some (AwaitSetInputSettings linkX)
  ∧ (∀ v, currentSourceUrl (state (step w1 (Settle (nextId w) (Resolved v))))
          = Some (url linkX))
  ∧ (∀ message,
       let w2 := step w1 (Settle (nextId w) (Rejected message)) in
       currentSourceUrl (state w2) = currentSourceUrl (state w)
       ∧ trace w2 = trace w1 ++ [Alert (switchFailure message)]).
Proof.
  split; [by vm_compute|].
  apply (switchMedia_optimistic_update connectedAB linkX
           (mkSource "A" "ffmpeg_source")); by vm_compute.
Defined.

(** C10.  When the guards pass but the selected name is not in the cached
    list, a click on a link shows an alert and sends [GetInputList]; no
    [SetInputSettings] is sent and the state, [currentSourceUrl]
    included, is unchanged. *)
Theorem switchMedia_unknown_source_refreshes (w : World) (link : LinkItem) :
  obs (state w) ≠ None → isConnected (state w) = true →
  selectedSource (state w) ≠ "" →
  findSource (selectedSource (state w)) (sources (state w)) = None →
  step w (ClickLink link) =
    {| state := state w;
       inflight := <[nextId w := AwaitGetInputList (render (state w))]> (inflight w);
       nextId := S (nextId w);
       trace := trace w ++
         [Alert "Source not found. Refreshing...";
          Call GetInputList (AwaitGetInputList (render (state w)))] |}.
Proof.
  intros Ho Hc Hs Hf.
  by rewrite (step_quiet w (ClickLink link) _ _
    (switchMedia_not_found (render (state w)) link (state w) Ho Hc Hs Hf)).
Qed.

Lemma switchMedia_unknown_source_refreshes_witness :
  let w := racedRefresh in
  (obs (state w) ≠ None ∧ isConnected (state w) = true
   ∧ selectedSource (state w) ≠ ""
   ∧ findSource (selectedSource (state w)) (sources (state w)) = None)
  ∧ step w (ClickLink linkX) =
    {| state := state w;
       inflight := <[nextId w := AwaitGetInputList (render (state w))]> (inflight w);
       nextId := S (nextId w);
       trace := trace w ++
         [Alert "Source not found. Refreshing...";
          Call GetInputList (AwaitGetInputList (render (state w)))] |}.
Proof.
  split; [by vm_compute|].
  apply (switchMedia_unknown_source_refreshes racedRefresh linkX);
    by vm_compute.
Defined.

(** ** Refreshing the sources *)

Lemma step_state (w : World) (e : Event) :
  state (step w e) = (useEffects (state w) (handler w e (state w)).1.2).1.2.
Proof.
  unfold step. unfold mbind at 1, Task_bind.
  destruct (handler w e (state w)) as [[[] st] es]. cbn.
  destruct (useEffects (state w) st) as [[[] st'] es'].
  by destruct (register _ _ _).
Qed.

Lemma step_frame (w : World) (e : Event) :
  let st := (handler w e (state w)).1.2 in
  isConnected (state (step w e)) = isConnected st
  ∧ sources (state (step w e)) = sources st
  ∧ selectedSource (state (step w e)) = selectedSource st
  ∧ obs (state (step w e)) = obs st
  ∧ connError (state (step w e)) = connError st.
Proof. cbn. rewrite step_state. apply useEffects_frame. Qed.

Lemma fetchSources_resume_sources (r : Render) inputs (st : State) :
  sources (fetchSources_resume r (Resolved (PInputList inputs)) st).1.2
  = mediaSources inputs.
Proof.
  unfold fetchSources_resume. task.
  destruct (mediaSources inputs); task; [done|]. by branch.
Qed.

Lemma fetchSources_resume_selection (r : Render) inputs (st : State) :
  selectedSource (fetchSources_resume r (Resolved (PInputList inputs)) st).1.2
  = match mediaSources inputs with
    | first :: _ =>
        if bool_decide (rSelectedSource r = "")
           || bool_decide (findSource (rSelectedSource r) (mediaSources inputs) = None)
        then name first else selectedSource st
    | [] => ""
    end.
Proof.
  unfold fetchSources_resume. task.
  destruct (mediaSources inputs); task; [done|]. by branch.
Qed.

(** Selection repair without a race.  When a refresh resolves and the
    selection is still the one its closure saw, the source list becomes the supported inputs [R] in the
    order of the reply; a selection that was empty or is not a name of [R]
    becomes the name of the first source of [R], or empty when [R] is;
    a selection that is a name of [R] is kept; so the selection is empty
    or a name of [R]. *)
Lemma refresh_repairs_selection
    (w : World) (rid : nat) (r : Render) (inputs : list Input) :
  inflight w !! rid = Some (AwaitGetInputList r) →
  rSelectedSource r = selectedSource (state w) →
  let prior := selectedSource (state w) in
  let R := mediaSources inputs in
  let w' := step w (Settle rid (Resolved (PInputList inputs))) in
  sources (state w') = R
  ∧ (prior = "" ∨ prior ∉ name <$> R →
     selectedSource (state w') = default "" (name <$> head R))
  ∧ (prior ≠ "" → prior ∈ name <$> R → selectedSource (state w') = prior)
  ∧ (selectedSource (state w') = "" ∨ selectedSource (state w') ∈ name <$> R).
Proof.
  intros Hk Hr prior R w'.
  destruct (step_frame w (Settle rid (Resolved (PInputList inputs))))
    as (_ & Hsrc & Hsel & _).
  rewrite (handler_settle _ _ _ _ Hk) in Hsrc, Hsel. unfold resume in Hsrc, Hsel.
  rewrite fetchSources_resume_sources in Hsrc.
  rewrite fetchSources_resume_selection, Hr in Hsel.
  subst w'. rewrite Hsrc, Hsel. fold R prior. clear Hsrc Hsel.
  clearbody prior R. clear Hk Hr.
  split; [reflexivity|]. destruct R as [|first R']; cbn -[findSource].
  { split; [done | split; [|by left]].
    intros _ Hin. by apply elem_of_nil in Hin. }
  assert (Hin : prior ∈ name <$> first :: R' →
                bool_decide (findSource prior (first :: R') = None) = false).
  { intros Hin. apply bool_decide_eq_false. rewrite findSource_None. tauto. }
  assert (Hnot : prior ∉ name <$> first :: R' →
                 bool_decide (findSource prior (first :: R') = None) = true).
  { intros Hnot. apply bool_decide_eq_true. by rewrite findSource_None. }
  split; [|split].
  - intros [->|H]; [done|]. by rewrite (Hnot H), orb_true_r.
  - intros Hne H. by rewrite (bool_decide_eq_false_2 _ Hne), (Hin H).
  - right. destruct (decide (prior ∈ name <$> first :: R')) as [H|H].
    + rewrite (Hin H), orb_false_r.
      destruct (bool_decide (prior = "")); [by left | done].
    + rewrite (Hnot H), orb_true_r. by left.
Qed.

Lemma refresh_repairs_selection_witness :
  let w := run mounted [ ClickConnectButton; Settle 0 (Resolved PVoid); ClickRefresh ] in
  let r := mkRender true "" [] in
  let w' := step w (Settle 1 (Resolved (PInputList inputsAB))) in
  (inflight w !! 1 = Some (AwaitGetInputList r)
   ∧ rSelectedSource r = selectedSource (state w))
  ∧ sources (state w') = mediaSources inputsAB
  ∧ (selectedSource (state w) = ""
     ∨ selectedSource (state w) ∉ name <$> mediaSources inputsAB →
     selectedSource (state w') = default "" (name <$> head (mediaSources inputsAB)))
  ∧ (selectedSource (state w) ≠ "" →
     selectedSource (state w) ∈ name <$> mediaSources inputsAB →
     selectedSource (state w') = selectedSource (state w))
  ∧ (selectedSource (state w') = ""
     ∨ selectedSource (state w') ∈ name <$> mediaSources inputsAB).
Proof.
  split; [by vm_compute|].
  apply (refresh_repairs_selection
           (run mounted [ ClickConnectButton; Settle 0 (Resolved PVoid); ClickRefresh ])
           1 (mkRender true "" []) inputsAB); by vm_compute.
Defined.

(** ** Reconciling the active URL *)

Lemma settle_fetchActiveState_resolved (w : World) rid sourceName settings k :
  inflight w !! rid = Some (AwaitGetInputSettings sourceName) →
  let w' := step w (Settle rid (Resolved (PInputSettings settings k))) in
  currentSourceUrl (state w') = Some (activeUrl settings k)
  ∧ selectedSource (state w') = selectedSource (state w)
  ∧ inflight w' = delete rid (inflight w)
  ∧ trace w' = trace w.
Proof. intros H. cbn. by rewrite (settle_fetchActiveState _ _ _ _ H). Qed.

Lemma settle_fetchActiveState_rejected (w : World) rid sourceName message :
  inflight w !! rid = Some (AwaitGetInputSettings sourceName) →
  let w' := step w (Settle rid (Rejected message)) in
  state w' = state w ∧ inflight w' = delete rid (inflight w)
  ∧ trace w' = trace w.
Proof. intros H. cbn. by rewrite (settle_fetchActiveState _ _ _ _ H). Qed.

(** C3, as stated, fails: the reply for "A" arrives after "B" was selected
    and after the reply for "B" was applied, and replaces the URL of "B". *)
Lemma late_reply_for_previous_selection_applied :
  inflight switchedToB !! 2 = Some (AwaitGetInputSettings "A")
  ∧ selectedSource (state switchedToB) = "B"
  ∧ currentSourceUrl (state switchedToB) = Some "https://b"
  ∧ let w' := step switchedToB (Settle 2 (replyA "rtmp://a")) in
    selectedSource (state w') = "B"
    ∧ currentSourceUrl (state w') = Some "rtmp://a".
Proof. by vm_compute. Qed.

(** C3, amended.  A resolved fetch of the settings of [A] is applied when
    it arrives, whatever is selected by then: [currentSourceUrl] becomes
    the URL read from the reply, and the selection is not touched. *)
Theorem reply_applied_whatever_selected
    (w : World) (rid : nat) (A B : string) settings k :
  inflight w !! rid = Some (AwaitGetInputSettings A) →
  selectedSource (state w) = B → A ≠ B →
  let w' := step w (Settle rid (Resolved (PInputSettings settings k))) in
  currentSourceUrl (state w') = Some (activeUrl settings k)
  ∧ selectedSource (state w') = B.
Proof.
  intros H HB _ w'.
  destruct (settle_fetchActiveState_resolved w rid A settings k H)
    as (Hu & Hs & _).
  split; [exact Hu | by rewrite <- HB].
Qed.

Lemma reply_applied_whatever_selected_witness :
  (inflight switchedToB !! 2 = Some (AwaitGetInputSettings "A")
   ∧ selectedSource (state switchedToB) = "B" ∧ "A" ≠ "B")
  ∧ let w' := step switchedToB
                (Settle 2 (Resolved (PInputSettings {[ "local_file" := "rtmp://a" ]}
                                                    "ffmpeg_source"))) in
    currentSourceUrl (state w')
      = Some (activeUrl {[ "local_file" := "rtmp://a" ]} "ffmpeg_source")
    ∧ selectedSource (state w') = "B".
Proof.
  split; [by vm_compute|].
  apply (reply_applied_whatever_selected switchedToB 2 "A" "B"); by vm_compute.
Defined.

(** C4, as stated, fails: of two fetches for "A", the reply to the first
    arrives after the reply to the second and overwrites it. *)
Lemma late_reply_overwrites_newer :
  inflight fetchedATwice !! 2 = Some (AwaitGetInputSettings "A")
  ∧ selectedSource (state fetchedATwice) = "A"
  ∧ currentSourceUrl (state fetchedATwice) = Some "rtmp://new"
  ∧ currentSourceUrl (state (step fetchedATwice (Settle 2 (replyA "rtmp://old"))))
    = Some "rtmp://old".
Proof. by vm_compute. Qed.

(** C4, amended.  Of two fetches for the same input, when the reply to the
    one sent first arrives after the reply to the one sent second,
    [currentSourceUrl] ends as the URL of the reply that arrived last,
    the one to the first request. *)
Theorem last_arrived_reply_wins
    (w : World) (rid1 rid2 : nat) (X : string) s1 k1 s2 k2 :
  rid1 < rid2 →
  inflight w !! rid1 = Some (AwaitGetInputSettings X) →
  inflight w !! rid2 = Some (AwaitGetInputSettings X) →
  let w2 := step w (Settle rid2 (Resolved (PInputSettings s2 k2))) in
  let w1 := step w2 (Settle rid1 (Resolved (PInputSettings s1 k1))) in
  currentSourceUrl (state w2) = Some (activeUrl s2 k2)
  ∧ currentSourceUrl (state w1) = Some (activeUrl s1 k1).
Proof.
  intros Hlt H1 H2 w2 w1.
  destruct (settle_fetchActiveState_resolved w rid2 X s2 k2 H2)
    as (Hu2 & _ & Hin & _).
  split; [exact Hu2|].
  assert (H1' : inflight w2 !! rid1 = Some (AwaitGetInputSettings X)).
  { subst w2. rewrite Hin, lookup_delete_ne; [done | lia]. }
  by destruct (settle_fetchActiveState_resolved w2 rid1 X s1 k1 H1').
Qed.

Lemma last_arrived_reply_wins_witness :
  let w := run connectedAB [ ChangeSelect "B"; ChangeSelect "A" ] in
  let sNew : gmap string string := {[ "local_file" := "rtmp://new" ]} in
  let sOld : gmap string string := {[ "local_file" := "rtmp://old" ]} in
  (2 < 4 ∧ inflight w !! 2 = Some (AwaitGetInputSettings "A")
   ∧ inflight w !! 4 = Some (AwaitGetInputSettings "A"))
  ∧ let w2 := step w (Settle 4 (Resolved (PInputSettings sNew "ffmpeg_source"))) in
    let w1 := step w2 (Settle 2 (Resolved (PInputSettings sOld "ffmpeg_source"))) in
    currentSourceUrl (state w2) = Some (activeUrl sNew "ffmpeg_source")
    ∧ currentSourceUrl (state w1) = Some (activeUrl sOld "ffmpeg_source").
Proof.
  split; [split; [lia | by vm_compute]|].
  apply (last_arrived_reply_wins
           (run connectedAB [ ChangeSelect "B"; ChangeSelect "A" ]) 2 4 "A");
    [lia | by vm_compute | by vm_compute].
Defined.

(** The URL read from a reply, case by case. *)
Lemma activeUrl_browser (settings : gmap string string) :
  activeUrl settings "browser_source" = or_else (settings !! "url") "".
Proof. done. Qed.

Lemma activeUrl_local_file (settings : gmap string string) k file :
  k ≠ "browser_source" → settings !! "local_file" = Some file → file ≠ "" →
  activeUrl settings k = file.
Proof.
  intros Hk Hf Hne. unfold activeUrl, or_else.
  by rewrite (bool_decide_eq_false_2 _ Hk), Hf, (bool_decide_eq_false_2 _ Hne).
Qed.

Lemma activeUrl_fallback (settings : gmap string string) k :
  k ≠ "browser_source" → truthy (settings !! "local_file") = false →
  activeUrl settings k = or_else (settings !! "url") "".
Proof.
  intros Hk Hf. unfold activeUrl. rewrite (bool_decide_eq_false_2 _ Hk).
  unfold truthy in Hf. destruct (settings !! "local_file") as [file|]; [|done].
  apply negb_false_iff, bool_decide_eq_true in Hf. by subst file.
Qed.

(** C9, as stated, fails where the input no longer exists: the rejected
    fetch leaves [currentSourceUrl] at the URL of the source selected
    before, it does not become unknown. *)
Lemma vanished_input_keeps_stale_url :
  inflight selectedRemovedB !! 3 = Some (AwaitGetInputSettings "B")
  ∧ selectedSource (state selectedRemovedB) = "B"
  ∧ let w' := step selectedRemovedB
                (Settle 3 (Rejected (Some "No source was found by the name of `B`."))) in
    currentSourceUrl (state w') = Some "rtmp://a"
    ∧ currentSourceUrl (state w') ≠ None.
Proof. by vm_compute. Qed.

(** C9, amended.  A resolved fetch sets [currentSourceUrl] to the URL read
    by kind: for [browser_source] the [url] field, or the empty string
    when it is missing or empty; for any other kind the [local_file]
    field when it is a non-empty string, else the [url] field, else the
    empty string.  A rejected fetch, as for an input that no longer
    exists, changes no state and shows nothing: [currentSourceUrl] keeps
    its value. *)
Theorem reconcile_reads_url_by_kind
    (w : World) (rid : nat) (sourceName : string) :
  inflight w !! rid = Some (AwaitGetInputSettings sourceName) →
  (∀ settings k,
     currentSourceUrl
       (state (step w (Settle rid (Resolved (PInputSettings settings k)))))
     = Some (activeUrl settings k)
     ∧ (k = "browser_source" → activeUrl settings k = or_else (settings !! "url") "")
     ∧ (k ≠ "browser_source" →
        (∀ file, settings !! "local_file" = Some file → file ≠ "" →
                 activeUrl settings k = file)
        ∧ (truthy (settings !! "local_file") = false →
           activeUrl settings k = or_else (settings !! "url") "")))
  ∧ (∀ message,
       let w' := step w (Settle rid (Rejected message)) in
       state w' = state w ∧ trace w' = trace w).
Proof.
  intros H. split.
  - intros settings k.
    split; [by apply (settle_fetchActiveState_resolved w rid sourceName)|].
    split; [intros ->; apply activeUrl_browser|].
    intros Hk. split.
    + intros file. by apply activeUrl_local_file.
    + by apply activeUrl_fallback.
  - intros message.
    by destruct (settle_fetchActiveState_rejected w rid sourceName message H)
      as (? & _ & ?).
Qed.

Lemma reconcile_reads_url_by_kind_witness :
  let w := selectedRemovedB in
  inflight w !! 3 = Some (AwaitGetInputSettings "B")
  ∧ (∀ settings k,
     currentSourceUrl
       (state (step w (Settle 3 (Resolved (PInputSettings settings k)))))
     = Some (activeUrl settings k)
     ∧ (k = "browser_source" → activeUrl settings k = or_else (settings !! "url") "")
     ∧ (k ≠ "browser_source" →
        (∀ file, settings !! "local_file" = Some file → file ≠ "" →
                 activeUrl settings k = file)
        ∧ (truthy (settings !! "local_file") = false →
           activeUrl settings k = or_else (settings !! "url") "")))
  ∧ (∀ message,
       let w' := step w (Settle 3 (Rejected message)) in
       state w' = state w ∧ trace w' = trace w).
Proof.
  split; [by vm_compute|].
  apply (reconcile_reads_url_by_kind selectedRemovedB 3 "B"). by vm_compute.
Defined.

(** ** Losing the connection *)

Lemma onConnectionClosed_closed (st : State) :
  onConnectionClosed st = ((), closed st, []).
Proof. done. Qed.

Lemma forEach_onConnectionClosed (ls : list Render) (st : State) :
  ls ≠ [] →
  forEach (λ _, onConnectionClosed) ls st = ((), closed st, []).
Proof.
  intros Hne. destruct ls as [|r ls]; [done|]. clear Hne.
  revert r st. induction ls as [|r' ls IH]; intros r st; [done|].
  change (forEach (λ _, onConnectionClosed) (r :: r' :: ls))
    with (onConnectionClosed ≫= λ _, forEach (λ _ : Render, onConnectionClosed) (r' :: ls)).
  by rewrite (bind_run _ _ _ _ _ _ _ _ _
                (onConnectionClosed_closed st) (IH r' (closed st))).
Qed.

Lemma endsSession_handler (w : World) (e : Event) :
  endsSession w e →
  let st := (handler w e (state w)).1.2 in
  isConnected st = false ∧ currentSourceUrl st = None
  ∧ sources st = sources (state w)
  ∧ selectedSource st = selectedSource (state w).
Proof.
  destruct e as [| | | | | |rid [v|]]; try done; cbn [endsSession]; intros H.
  - cbn [handler]. by rewrite forEach_onConnectionClosed.
  - by rewrite (handler_settle _ _ _ _ H).
Qed.

(** C1, as stated, fails: after [ConnectionClosed], and after a
    disconnect, the source list and the selection are what they were. *)
Lemma connection_loss_keeps_sources_and_selection :
  let afterClosed := step connectedAB ConnectionClosed in
  let afterDisconnect :=
    run connectedAB [ ClickConnectButton; Settle 3 (Resolved PVoid) ] in
  endsSession connectedAB ConnectionClosed
  ∧ sources (state afterClosed)
    = [mkSource "A" "ffmpeg_source"; mkSource "B" "browser_source"]
  ∧ selectedSource (state afterClosed) = "A"
  ∧ isConnected (state afterDisconnect) = false
  ∧ sources (state afterDisconnect)
    = [mkSource "A" "ffmpeg_source"; mkSource "B" "browser_source"]
  ∧ selectedSource (state afterDisconnect) = "A".
Proof. by vm_compute. Qed.

(** C1, amended.  After [ConnectionClosed] reaches a listener, and after
    [disconnectOBS] resumes, the component is not connected and
    [currentSourceUrl] is [null]; the source list and the selection are
    unchanged. *)
Theorem connection_loss_clears_active_url (w : World) (e : Event) :
  endsSession w e →
  let w' := step w e in
  isConnected (state w') = false
  ∧ currentSourceUrl (state w') = None
  ∧ sources (state w') = sources (state w)
  ∧ selectedSource (state w') = selectedSource (state w).
Proof.
  intros H w'. subst w'.
  destruct (endsSession_handler w e H) as (Hc & Hu & Hsrc & Hsel).
  destruct (step_frame w e) as (Hc' & Hsrc' & Hsel' & _).
  rewrite Hc', Hsrc', Hsel', Hc, Hsrc, Hsel. repeat split.
  rewrite step_state.
  set (st := (handler w e (state w)).1.2) in *.
  unfold useEffects, fetchActiveState. task. rewrite Hc. cbn.
  branch; try done.
Qed.

Lemma connection_loss_clears_active_url_witness :
  endsSession connectedAB ConnectionClosed
  ∧ let w' := step connectedAB ConnectionClosed in
    isConnected (state w') = false
    ∧ currentSourceUrl (state w') = None
    ∧ sources (state w') = sources (state connectedAB)
    ∧ selectedSource (state w') = selectedSource (state connectedAB).
Proof.
  split; [by vm_compute|].
  apply (connection_loss_clears_active_url connectedAB ConnectionClosed).
  by vm_compute.
Defined.

(** ** What the listeners closed over *)

Lemma keeps_bind {A B} (m : Task A) (f : A → Task B) :
  keeps m → (∀ a, keeps (f a)) → keeps (m ≫= f).
Proof.
  intros Hm Hf st Hst. unfold mbind, Task_bind.
  destruct (Hm st Hst) as (H1 & H2 & H3).
  destruct (m st) as [[a st1] es1]. cbn in *.
  destruct (Hf a st1 H1) as (H4 & H5 & H6).
  destruct (f a st1) as [[b st2] es2]. cbn in *.
  split; [done|]. split; [congruence|]. by apply Forall_app.
Qed.

Ltac keeps_leaf :=
  intros st Hst; task; branch;
  (split; [exact Hst || done | split; [reflexivity | repeat constructor]]).

Lemma keeps_fetchActiveState r n : keeps (fetchActiveState r n).
Proof. unfold fetchActiveState. keeps_leaf. Qed.

Lemma keeps_fetchSources r : keeps (fetchSources r).
Proof. unfold fetchSources. keeps_leaf. Qed.

Lemma keeps_switchMedia r link : keeps (switchMedia r link).
Proof.
  unfold switchMedia, fetchSources. intros st Hst; task; branch.
  all: try (split; [exact Hst || done | split; [reflexivity | repeat constructor]]).
  destruct (findSource _ _); task; branch;
  (split; [exact Hst || done | split; [reflexivity | repeat constructor]]).
Qed.

Lemma keeps_forEach {A} (f : A → Task unit) (l : list A) :
  (∀ x, x ∈ l → keeps (f x)) → keeps (forEach f l).
Proof.
  induction l as [|x l IH]; intros Hf.
  - by keeps_leaf.
  - apply keeps_bind; [apply Hf; by left|].
    intros _. apply IH. intros y Hy. apply Hf. by right.
Qed.

Lemma keeps_updateActiveStateIfMatches r n :
  keeps (updateActiveStateIfMatches r n).
Proof. unfold updateActiveStateIfMatches, fetchActiveState. keeps_leaf. Qed.

Lemma keeps_onConnectionClosed : keeps onConnectionClosed.
Proof. unfold onConnectionClosed. keeps_leaf. Qed.

Lemma keeps_disconnectOBS : keeps disconnectOBS.
Proof. unfold disconnectOBS. keeps_leaf. Qed.

Lemma keeps_connectToOBS r : rIsConnected r = false → keeps (connectToOBS r).
Proof.
  intros Hr. unfold connectToOBS. intros st Hst; task; branch.
  - split; [by constructor | split; [reflexivity | by repeat constructor]].
  - split; [exact Hst | split; [reflexivity | by repeat constructor]].
Qed.

Lemma keeps_connectToOBS_resume r reply :
  rIsConnected r = false → keeps (connectToOBS_resume r reply).
Proof.
  intros Hr. unfold connectToOBS_resume, addListeners, fetchSources.
  intros st Hst. destruct reply as [v|message]; task.
  - unfold listenersStale, listenersOf in Hst |- *.
    destruct (obs st) as [ls|]; task; rewrite ?Hr; cbn.
    + split; [|done]. apply Forall_app. split; [done | by constructor].
    + done.
  - split; [exact Hst | split; [reflexivity | repeat constructor]].
Qed.

Lemma keeps_resume k reply : stalePending k → keeps (resume k reply).
Proof.
  destruct k as [r| |n|r|link]; intros Hk; cbn [resume].
  - by apply keeps_connectToOBS_resume.
  - unfold disconnectOBS_resume. destruct reply; keeps_leaf.
  - unfold fetchActiveState_resume. destruct reply as [[]|]; keeps_leaf.
  - unfold fetchSources_resume. destruct reply as [[| inputs |]|]; try keeps_leaf.
    intros st Hst. task. destruct (mediaSources inputs); task; branch;
      (split; [exact Hst | split; [reflexivity | repeat constructor]]).
  - unfold switchMedia_resume. destruct reply; keeps_leaf.
Qed.

Lemma keeps_handler (w : World) (e : Event) :
  invariant w → keeps (handler w e).
Proof.
  intros [Hl Hi Hr]. destruct e as [| |value|link| |n|rid reply]; cbn [handler].
  - destruct (isConnected (state w)) eqn:Hc.
    + apply keeps_disconnectOBS.
    + by apply keeps_connectToOBS.
  - apply keeps_fetchSources.
  - keeps_leaf.
  - apply keeps_switchMedia.
  - apply keeps_forEach. intros _ _. apply keeps_onConnectionClosed.
  - apply keeps_forEach. intros r _. apply keeps_updateActiveStateIfMatches.
  - destruct (inflight w !! rid) as [k|] eqn:Hk.
    + apply keeps_resume. by apply (Hi rid).
    + keeps_leaf.
Qed.

Lemma useEffects_invariant (prev st : State) :
  listenersStale st → selectedSourceRef st = selectedSource prev →
  listenersStale (useEffects prev st).1.2
  ∧ selectedSourceRef (useEffects prev st).1.2
    = selectedSource (useEffects prev st).1.2
  ∧ Forall staleEffect (useEffects prev st).2.
Proof.
  intros Hl Hr. unfold useEffects, fetchActiveState. task.
  destruct (decide (selectedSource prev = selectedSource st)) as [Hs|Hs].
  - rewrite (bool_decide_eq_true_2 _ Hs). task. branch;
      (split; [exact Hl | split; [cbn; congruence | repeat constructor]]).
  - rewrite (bool_decide_eq_false_2 _ Hs). task. branch;
      (split; [exact Hl | split; [reflexivity | repeat constructor]]).
Qed.

Lemma register_stale (es : list Effect) (m : gmap nat Pending) (n : nat) :
  Forall staleEffect es → map_Forall (λ _, stalePending) m →
  map_Forall (λ _, stalePending) (register es m n).1.
Proof.
  revert m n. induction es as [|e es IH]; intros m n Hes Hm; [done|].
  apply Forall_cons in Hes as [He Hes].
  destruct e as [| |request k]; cbn [register]; [by apply IH ..|].
  apply IH; [done|]. by apply map_Forall_insert_2.
Qed.

Lemma settled_stale (e : Event) (m : gmap nat Pending) :
  map_Forall (λ _, stalePending) m →
  map_Forall (λ _, stalePending) (settled e m).
Proof.
  intros Hm. destruct e; try done. cbn. by apply map_Forall_delete.
Qed.

Lemma step_invariant (w : World) (e : Event) :
  invariant w → invariant (step w e).
Proof.
  intros Hw. pose proof Hw as [Hl Hi Hr].
  destruct (keeps_handler w e Hw (state w) Hl) as (Hl1 & Hr1 & He1).
  destruct (handler w e (state w)) as [[[] st] es] eqn:Hh. cbn in Hl1, Hr1, He1.
  assert (Hr2 : selectedSourceRef st = selectedSource (state w)) by congruence.
  destruct (useEffects_invariant (state w) st Hl1 Hr2) as (Hl' & Hr' & He').
  destruct (useEffects (state w) st) as [[[] st'] es'] eqn:Hu.
  cbn in Hl', Hr', He'.
  rewrite (step_run w e st es st' es' Hh Hu).
  split; cbn; [done | | done].
  apply register_stale; [by apply Forall_app | by apply settled_stale].
Qed.

Lemma mounted_invariant : invariant mounted.
Proof. split; [by constructor | apply map_Forall_empty | done]. Qed.

Lemma reachable_invariant (w : World) : reachable w → invariant w.
Proof.
  induction 1 as [|w e _ IH]; [apply mounted_invariant | by apply step_invariant].
Qed.

Lemma fetchActiveState_stale (r : Render) (n : string) (st : State) :
  rIsConnected r = false → fetchActiveState r n st = ((), st, []).
Proof.
  intros Hr. unfold fetchActiveState. task.
  by rewrite Hr, orb_true_r.
Qed.

Lemma fetchActiveState_live (r : Render) (n : string) (st : State) :
  obs st ≠ None → rIsConnected r = true → n ≠ "" →
  fetchActiveState r n st
  = ((), st, [Call (GetInputSettings n) (AwaitGetInputSettings n)]).
Proof.
  intros Ho Hr Hn. unfold fetchActiveState. task.
  by rewrite Hr, !bool_decide_eq_false_2.
Qed.

(** The listener compares against the ref, read when the event arrives:
    with a closure of a connected render it would fetch exactly for the
    selected input. *)
Lemma updateActiveStateIfMatches_live (r : Render) (n : string) (st : State) :
  obs st ≠ None → rIsConnected r = true → n ≠ "" →
  (updateActiveStateIfMatches r n st).2
    = [Call (GetInputSettings n) (AwaitGetInputSettings n)]
  ↔ n = selectedSourceRef st.
Proof.
  intros Ho Hr Hn. unfold updateActiveStateIfMatches.
  unfold mbind at 1, Task_bind, get. case_bool_decide as Heq.
  - rewrite (fetchActiveState_live r n st Ho Hr Hn). by cbn.
  - by cbn.
Qed.

Lemma updateActiveStateIfMatches_stale (r : Render) (n : string) (st : State) :
  rIsConnected r = false → updateActiveStateIfMatches r n st = ((), st, []).
Proof.
  intros Hr. unfold updateActiveStateIfMatches.
  unfold mbind at 1, Task_bind, get. case_bool_decide.
  - by rewrite (fetchActiveState_stale r n st Hr).
  - done.
Qed.

Lemma forEach_onInputSettingsChanged (ls : list Render) (n : string) (st : State) :
  Forall (λ r, rIsConnected r = false) ls →
  forEach (λ r, onInputSettingsChanged r n) ls st = ((), st, []).
Proof.
  induction 1 as [|r ls Hr _ IH]; [done|].
  change (forEach (λ r, onInputSettingsChanged r n) (r :: ls))
    with (onInputSettingsChanged r n
            ≫= λ _, forEach (λ r, onInputSettingsChanged r n) ls).
  by rewrite (bind_run _ _ _ _ _ _ _ _ _
                (updateActiveStateIfMatches_stale r n st Hr) IH).
Qed.

(** In every world the component can reach, every listener is a closure
    of a render that was not connected, and an [InputSettingsChanged]
    event changes nothing and sends nothing, whatever input it names. *)
Lemma reachable_InputSettingsChanged_ignored (w : World) (n : string) :
  reachable w → step w (InputSettingsChanged n) = w.
Proof.
  intros [Hl _ _]%reachable_invariant.
  rewrite (step_quiet w (InputSettingsChanged n) (state w) []).
  - rewrite app_nil_r. by destruct w.
  - by apply forEach_onInputSettingsChanged.
  - done.
  - done.
Qed.

(** C2.  At the failing input: the component is connected, "A" is
    selected and the ref holds "A", yet [InputSettingsChanged] for "A"
    sends no [GetInputSettings] and leaves the component as it was.  The
    listener compares with the live ref, but the [fetchActiveState] it
    calls is the one of the render that started the connection, in which
    [isConnected] was false. *)
Theorem external_change_of_selected_input_not_fetched :
  isConnected (state showingA) = true
  ∧ selectedSource (state showingA) = "A"
  ∧ selectedSourceRef (state showingA) = "A"
  ∧ currentSourceUrl (state showingA) = Some "rtmp://a"
  ∧ listenersOf (state showingA) = [mkRender false "" []]
  ∧ inflight showingA = ∅
  ∧ step showingA (InputSettingsChanged "A") = showingA.
Proof. by vm_compute. Qed.

(** C8.  At the failing input: a refresh was started while "A" was
    selected, "B" was selected before the reply arrived, and the reply
    lists "A" only.  The closure tests "A", finds it and does not reset:
    the selection stays "B", which is not in the new source list. *)
Theorem refresh_racing_selection_leaves_dangling :
  let w := run connectedAB [ ClickRefresh; ChangeSelect "B" ] in
  let w' := step w (Settle 3 (Resolved (PInputList [mkInput "A" (Some "ffmpeg_source")]))) in
  inflight w !! 3
    = Some (AwaitGetInputList
              (mkRender true "A" [mkSource "A" "ffmpeg_source";
                                  mkSource "B" "browser_source"]))
  ∧ selectedSource (state w) = "B"
  ∧ w' = racedRefresh
  ∧ sources (state w') = [mkSource "A" "ffmpeg_source"]
  ∧ selectedSource (state w') = "B"
  ∧ findSource (selectedSource (state w')) (sources (state w')) = None.
Proof. by vm_compute. Qed.


(** ** A session from connect to switch *)

(** After connecting, the list is empty until a refresh; the refresh
    selects "A" and fetches its URL; a successful switch shows the link's
    URL at once.  When OBS then reports a change of "A", the URL shown
    stays the optimistic one. *)
Example session :
  sources (state connectedNoSelection) = []
  ∧ selectedSource (state connectedAB) = "A"
  ∧ currentSourceUrl (state showingA) = Some "rtmp://a"
  ∧ currentSourceUrl (state switchedToX) = Some "rtmp://x"
  ∧ step switchedToX (InputSettingsChanged "A") = switchedToX.
Proof. by vm_compute. Qed.

(** * Further properties *)

(** ** Invariants of the reachable worlds *)

Lemma reachable_run (w : World) (es : list Event) :
  reachable w → reachable (run w es).
Proof.
  revert w. induction es as [|e es IH]; intros w Hw; [done|].
  apply IH. by constructor.
Qed.

Lemma reachable_connectedAB : reachable connectedAB.
Proof. apply reachable_run. constructor. Qed.

(** X1.  In every world the component can reach, [selectedSourceRef]
    holds the current selection when an event arrives. *)
Theorem ref_follows_selection (w : World) :
  reachable w → selectedSourceRef (state w) = selectedSource (state w).
Proof. by intros [_ _ ?]%reachable_invariant. Qed.

Lemma ref_follows_selection_witness :
  reachable connectedAB
  ∧ selectedSourceRef (state connectedAB) = selectedSource (state connectedAB).
Proof.
  split; [apply reachable_connectedAB|].
  apply (ref_follows_selection connectedAB). apply reachable_connectedAB.
Defined.

Lemma preserves_bind (P : State → Prop) {A B} (m : Task A) (f : A → Task B) :
  preserves P m → (∀ a, preserves P (f a)) → preserves P (m ≫= f).
Proof.
  intros Hm Hf st Hst. unfold mbind, Task_bind.
  specialize (Hm st Hst). destruct (m st) as [[a st1] es1]. cbn in *.
  specialize (Hf a st1 Hm). by destruct (f a st1) as [[b st2] es2].
Qed.

Lemma preserves_forEach (P : State → Prop) {A} (f : A → Task unit) (l : list A) :
  (∀ x, preserves P (f x)) → preserves P (forEach f l).
Proof.
  intros Hf. induction l as [|x l IH]; [by intros st Hst|].
  apply preserves_bind; [apply Hf | by intros _].
Qed.

Ltac cache_leaf :=
  intros st [Ho Hs]; task; branch; (split; [exact Ho || done | exact Hs]).

Lemma mediaSources_all_supported (inputs : list Input) :
  Forall (λ s, kind s ∈ SUPPORTED_KINDS) (mediaSources inputs).
Proof. apply Forall_forall. intros s. apply mediaSources_supported. Qed.

Lemma cacheSupported_resume (k : Pending) (reply : Reply) :
  preserves cacheSupported (resume k reply).
Proof.
  destruct k as [r| |n|r|link]; cbn [resume].
  - unfold connectToOBS_resume, addListeners, fetchSources.
    destruct reply as [v|message]; [|cache_leaf].
    intros st [Ho Hs]. task. destruct (obs st) as [ls|]; [|done].
    task. branch; (split; [done | exact Hs]).
  - unfold disconnectOBS_resume. destruct reply; cache_leaf.
  - unfold fetchActiveState_resume. destruct reply as [[]|]; cache_leaf.
  - unfold fetchSources_resume. destruct reply as [[| inputs |]|]; try cache_leaf.
    intros st [Ho Hs]. task.
    pose proof (mediaSources_all_supported inputs) as Hm.
    destruct (mediaSources inputs); task; branch; (split; [exact Ho | done]).
  - unfold switchMedia_resume. destruct reply; cache_leaf.
Qed.

Lemma cacheSupported_handler (w : World) (e : Event) :
  preserves cacheSupported (handler w e).
Proof.
  destruct e as [| |value|link| |n|rid reply]; cbn [handler].
  - destruct (isConnected (state w)).
    + unfold disconnectOBS. cache_leaf.
    + unfold connectToOBS. cache_leaf.
  - unfold fetchSources. cache_leaf.
  - cache_leaf.
  - unfold switchMedia, fetchSources.
    destruct (findSource _ _); cache_leaf.
  - apply preserves_forEach. intros _. unfold onConnectionClosed. cache_leaf.
  - apply preserves_forEach. intros r.
    unfold onInputSettingsChanged, updateActiveStateIfMatches, fetchActiveState.
    cache_leaf.
  - destruct (inflight w !! rid); [apply cacheSupported_resume | cache_leaf].
Qed.

Lemma cacheSupported_step (w : World) (e : Event) :
  cacheSupported (state w) → cacheSupported (state (step w e)).
Proof.
  intros H. apply (cacheSupported_handler w e) in H.
  destruct (step_frame w e) as (_ & Hsrc & _ & Ho & _).
  unfold cacheSupported. by rewrite Hsrc, Ho.
Qed.

Lemma reachable_cacheSupported (w : World) :
  reachable w → cacheSupported (state w).
Proof.
  induction 1 as [|w e _ IH]; [|by apply cacheSupported_step].
  split; [done | constructor].
Qed.

(** X3.  In every reachable world the cached sources are of supported
    kinds, so the settings [switchMedia] builds for the selected source
    are those of a media source or those of a browser source, never the
    two-field fallback. *)
Theorem cached_sources_supported (w : World) (link : LinkItem) (source : OBSSource) :
  reachable w →
  findSource (selectedSource (state w)) (sources (state w)) = Some source →
  kind source ∈ SUPPORTED_KINDS
  ∧ (settingsFor source link
       = {[ "local_file" := JStr (url link);
            "is_local_file" := JBool (negb (isNetworkLink link)) ]}
     ∨ settingsFor source link = {[ "url" := JStr (url link) ]}).
Proof.
  intros [_ Hs]%reachable_cacheSupported [Hin _]%findSource_Some.
  rewrite Forall_forall in Hs. specialize (Hs source Hin).
  split; [done|]. unfold settingsFor, SUPPORTED_KINDS in *.
  apply elem_of_union in Hs as [Hs|Hs]; [apply elem_of_union in Hs as [Hs|Hs]|];
    apply elem_of_singleton in Hs; rewrite Hs; cbn; auto.
Qed.

Lemma cached_sources_supported_witness :
  (reachable connectedAB
   ∧ findSource (selectedSource (state connectedAB)) (sources (state connectedAB))
     = Some (mkSource "A" "ffmpeg_source"))
  ∧ kind (mkSource "A" "ffmpeg_source") ∈ SUPPORTED_KINDS
  ∧ (settingsFor (mkSource "A" "ffmpeg_source") linkX
       = {[ "local_file" := JStr (url linkX);
            "is_local_file" := JBool (negb (isNetworkLink linkX)) ]}
     ∨ settingsFor (mkSource "A" "ffmpeg_source") linkX
       = {[ "url" := JStr (url linkX) ]}).
Proof.
  split; [split; [apply reachable_connectedAB | by vm_compute]|].
  apply (cached_sources_supported connectedAB linkX (mkSource "A" "ffmpeg_source"));
    [apply reachable_connectedAB | by vm_compute].
Defined.

Lemma emitsWellFormed_bind {A B} (m : Task A) (f : A → Task B) :
  emitsWellFormed m → (∀ a, emitsWellFormed (f a)) → emitsWellFormed (m ≫= f).
Proof.
  intros Hm Hf st. unfold mbind, Task_bind.
  specialize (Hm st). destruct (m st) as [[a st1] es1].
  specialize (Hf a st1). destruct (f a st1) as [[b st2] es2].
  by apply Forall_app.
Qed.

Lemma emitsWellFormed_forEach {A} (f : A → Task unit) (l : list A) :
  (∀ x, emitsWellFormed (f x)) → emitsWellFormed (forEach f l).
Proof.
  intros Hf. induction l as [|x l IH]; [by intros st; constructor|].
  apply emitsWellFormed_bind; [apply Hf | by intros _].
Qed.

Ltac nonempty :=
  match goal with
  | H : bool_decide (?n = "") = false |- ?n ≠ "" =>
      by apply bool_decide_eq_false in H
  | H : _ || bool_decide (?n = "") = false |- ?n ≠ "" =>
      apply orb_false_iff in H as [_ H]; by apply bool_decide_eq_false in H
  | H : negb (bool_decide (?n = "")) && _ = true |- ?n ≠ "" =>
      apply andb_true_iff in H as [H _];
      by apply negb_true_iff, bool_decide_eq_false in H
  end.

Ltac wf_go :=
  task; branch; repeat (constructor; cbn; try done; try nonempty).

Ltac wf_leaf := solve [intros st; wf_go].

Lemma emitsWellFormed_fetchActiveState r n : emitsWellFormed (fetchActiveState r n).
Proof. unfold fetchActiveState. wf_leaf. Qed.

Lemma emitsWellFormed_useEffects prev : emitsWellFormed (useEffects prev).
Proof. unfold useEffects, fetchActiveState. wf_leaf. Qed.

Lemma emitsWellFormed_resume (k : Pending) (reply : Reply) :
  emitsWellFormed (resume k reply).
Proof.
  destruct k as [r| |n|r|link]; cbn [resume].
  - unfold connectToOBS_resume, addListeners, fetchSources.
    destruct reply as [v|message]; [|wf_leaf].
    intros st. task. destruct (obs st); solve [wf_go].
  - unfold disconnectOBS_resume. destruct reply; wf_leaf.
  - unfold fetchActiveState_resume. destruct reply as [[]|]; wf_leaf.
  - unfold fetchSources_resume. destruct reply as [[| inputs |]|]; try wf_leaf.
    intros st. task. destruct (mediaSources inputs); solve [wf_go].
  - unfold switchMedia_resume. destruct reply; wf_leaf.
Qed.

Lemma emitsWellFormed_handler (w : World) (e : Event) :
  emitsWellFormed (handler w e).
Proof.
  destruct e as [| |value|link| |n|rid reply]; cbn [handler].
  - destruct (isConnected (state w)).
    + unfold disconnectOBS. wf_leaf.
    + unfold connectToOBS. wf_leaf.
  - unfold fetchSources. wf_leaf.
  - wf_leaf.
  - unfold switchMedia, fetchSources. destruct (findSource _ _); wf_leaf.
  - apply emitsWellFormed_forEach. intros _. unfold onConnectionClosed. wf_leaf.
  - apply emitsWellFormed_forEach. intros r. apply emitsWellFormed_bind.
    + wf_leaf.
    + intros cur. case_bool_decide; [apply emitsWellFormed_fetchActiveState | wf_leaf].
  - destruct (inflight w !! rid); [apply emitsWellFormed_resume | wf_leaf].
Qed.

Lemma trace_step (w : World) (e : Event) :
  trace (step w e) = trace w ++ ((handler w e;; useEffects (state w)) (state w)).2.
Proof.
  unfold step. destruct ((handler w e;; useEffects (state w)) (state w)) as [[[] st] es].
  by destruct (register _ _ _).
Qed.

(** X4.  Whatever happens, the component never asks for or changes the
    settings of an input named by the empty string, and every
    [SetInputSettings] it sends has [overlay: true]. *)
Theorem requests_well_formed (w : World) :
  reachable w → Forall wellFormedEffect (trace w).
Proof.
  induction 1 as [|w e _ IH]; [constructor|].
  rewrite trace_step. apply Forall_app. split; [done|].
  apply emitsWellFormed_bind; [apply emitsWellFormed_handler|].
  intros _. apply emitsWellFormed_useEffects.
Qed.

Lemma requests_well_formed_witness :
  reachable lostWhileSwitching
  ∧ Forall wellFormedEffect (trace lostWhileSwitching).
Proof.
  split; [apply reachable_run, reachable_connectedAB|].
  apply (requests_well_formed lostWhileSwitching).
  apply reachable_run, reachable_connectedAB.
Defined.

(** ** Connecting, selecting, refreshing *)

Lemma reachable_obs (w : World) : reachable w → ∃ ls, obs (state w) = Some ls.
Proof.
  intros [Ho _]%reachable_cacheSupported.
  destruct (obs (state w)) as [ls|]; [by exists ls | done].
Qed.

Lemma reachable_pending_connect (w : World) rid r :
  reachable w → inflight w !! rid = Some (AwaitConnect r) → rIsConnected r = false.
Proof. intros [_ Hi _]%reachable_invariant Hk. by apply (Hi rid _ Hk). Qed.

(** X2.  In every reachable world every listener is a closure of a
    render that was not connected, and an [InputSettingsChanged] event,
    whatever input it names, changes nothing and sends nothing. *)
Theorem external_changes_never_fetched (w : World) :
  reachable w →
  Forall (λ r, rIsConnected r = false) (listenersOf (state w))
  ∧ ∀ inputName, step w (InputSettingsChanged inputName) = w.
Proof.
  intros Hw. split.
  - by apply reachable_invariant in Hw as [? _ _].
  - intros n. by apply reachable_InputSettingsChanged_ignored.
Qed.

Lemma external_changes_never_fetched_witness :
  reachable connectedAB
  ∧ Forall (λ r, rIsConnected r = false) (listenersOf (state connectedAB))
  ∧ ∀ inputName, step connectedAB (InputSettingsChanged inputName) = connectedAB.
Proof.
  split; [apply reachable_connectedAB|].
  apply (external_changes_never_fetched connectedAB), reachable_connectedAB.
Defined.

(** X5.  When [connect] resolves, the component becomes connected, closes
    the panel and adds its listeners, but the [fetchSources] it then
    calls sends nothing: the source list stays as it was.  The only
    request is the fetch of the selected source's settings, when there is
    a selection and the component was not connected. *)
Theorem connect_resolved_sends_no_refresh (w : World) (rid : nat) (r : Render) (v : Payload) :
  reachable w → inflight w !! rid = Some (AwaitConnect r) →
  let w' := step w (Settle rid (Resolved v)) in
  let sel := selectedSource (state w) in
  isConnected (state w') = true
  ∧ isConnectPanelOpen (state w') = false
  ∧ listenersOf (state w') = listenersOf (state w) ++ [r]
  ∧ sources (state w') = sources (state w)
  ∧ selectedSource (state w') = sel
  ∧ trace w' = trace w ++
      (if negb (isConnected (state w)) && negb (bool_decide (sel = ""))
       then [Call (GetInputSettings sel) (AwaitGetInputSettings sel)]
       else []).
Proof.
  intros Hw Hk. pose proof (reachable_pending_connect w rid r Hw Hk) as Hr.
  destruct (reachable_obs w Hw) as [ls Ho]. cbn zeta.
  rewrite trace_step, step_state, (handler_settle _ _ _ _ Hk). cbn [resume].
  unfold connectToOBS_resume, addListeners, fetchSources, useEffects,
    fetchActiveState, listenersOf.
  task. rewrite Ho. task. rewrite Hr. task.
  rewrite (bool_decide_eq_true_2 (selectedSource (state w) = selectedSource (state w))) by done.
  task.
  destruct (isConnected (state w)); task;
    destruct (bool_decide (selectedSource (state w) = "")); task; by rewrite ?Ho.
Qed.

Lemma connect_resolved_sends_no_refresh_witness :
  let w := connecting in
  let r := mkRender false "" [] in
  let w' := step w (Settle 0 (Resolved PVoid)) in
  (reachable w ∧ inflight w !! 0 = Some (AwaitConnect r))
  ∧ isConnected (state w') = true
  ∧ isConnectPanelOpen (state w') = false
  ∧ listenersOf (state w') = listenersOf (state w) ++ [r]
  ∧ sources (state w') = sources (state w)
  ∧ selectedSource (state w') = selectedSource (state w)
  ∧ trace w' = trace w ++
      (if negb (isConnected (state w))
          && negb (bool_decide (selectedSource (state w) = ""))
       then [Call (GetInputSettings (selectedSource (state w)))
                  (AwaitGetInputSettings (selectedSource (state w)))]
       else []).
Proof.
  split; [split; [repeat constructor | by vm_compute]|].
  apply (connect_resolved_sends_no_refresh connecting 0 (mkRender false "" []) PVoid);
    [repeat constructor | by vm_compute].
Defined.

(** X6.  When [connect] is rejected, the component is not connected and
    shows the error's message, or "Failed to connect. Check details."
    when the message is missing or empty; it logs the failure, sends
    nothing, leaves socket, sources and selection alone, and clears the
    active URL only if it was connected. *)
Theorem connect_rejected_reports (w : World) (rid : nat) (r : Render) (message : option string) :
  inflight w !! rid = Some (AwaitConnect r) →
  let w' := step w (Settle rid (Rejected message)) in
  isConnected (state w') = false
  ∧ connError (state w')
    = Some (or_else message "Failed to connect. Check details.")
  ∧ obs (state w') = obs (state w)
  ∧ sources (state w') = sources (state w)
  ∧ selectedSource (state w') = selectedSource (state w)
  ∧ currentSourceUrl (state w')
    = (if isConnected (state w) then None else currentSourceUrl (state w))
  ∧ trace w' = trace w ++ [ConsoleError "OBS Connection failed"].
Proof.
  intros Hk. cbn zeta.
  rewrite trace_step, step_state, (handler_settle _ _ _ _ Hk). cbn [resume].
  unfold connectToOBS_resume, useEffects, fetchActiveState. task.
  rewrite (bool_decide_eq_true_2 (selectedSource (state w) = selectedSource (state w))) by done.
  task. destruct (isConnected (state w)); task; [|done].
  by rewrite andb_false_r.
Qed.

Lemma connect_rejected_reports_witness :
  let w := connecting in
  let w' := step w (Settle 0 (Rejected (Some ""))) in
  inflight w !! 0 = Some (AwaitConnect (mkRender false "" []))
  ∧ isConnected (state w') = false
  ∧ connError (state w')
    = Some (or_else (Some "") "Failed to connect. Check details.")
  ∧ obs (state w') = obs (state w)
  ∧ sources (state w') = sources (state w)
  ∧ selectedSource (state w') = selectedSource (state w)
  ∧ currentSourceUrl (state w')
    = (if isConnected (state w) then None else currentSourceUrl (state w))
  ∧ trace w' = trace w ++ [ConsoleError "OBS Connection failed"].
Proof.
  split; [by vm_compute|].
  apply (connect_rejected_reports connecting 0 (mkRender false "" []) (Some "")).
  by vm_compute.
Defined.

(** X7.  Choosing another, non-empty source while connected updates the
    selection and the ref and sends one [GetInputSettings] for it; the
    active URL keeps the value it had until a reply arrives. *)
Theorem select_fetches_new_source (w : World) (value : string) :
  obs (state w) ≠ None → isConnected (state w) = true →
  value ≠ "" → value ≠ selectedSource (state w) →
  let w' := step w (ChangeSelect value) in
  selectedSource (state w') = value
  ∧ selectedSourceRef (state w') = value
  ∧ currentSourceUrl (state w') = currentSourceUrl (state w)
  ∧ inflight w' = <[nextId w := AwaitGetInputSettings value]> (inflight w)
  ∧ trace w' = trace w ++
      [Call (GetInputSettings value) (AwaitGetInputSettings value)].
Proof.
  intros Ho Hc Hv Hne.
  assert (Hu : useEffects (state w) (setSelectedSource value (state w)).1.2
               = ((), (setSelectedSourceRef value (setSelectedSource value (state w)).1.2).1.2,
                  [Call (GetInputSettings value) (AwaitGetInputSettings value)])).
  { unfold useEffects, fetchActiveState. task.
    rewrite (bool_decide_eq_false_2 (selectedSource (state w) = value)) by done.
    task. rewrite (bool_decide_eq_false_2 _ Hv), Hc. task.
    by rewrite (bool_decide_eq_false_2 _ Ho). }
  cbn zeta.
  by rewrite (step_run w (ChangeSelect value) _ [] _ _ eq_refl Hu).
Qed.

Lemma select_fetches_new_source_witness :
  let w := showingA in
  let w' := step w (ChangeSelect "B") in
  (obs (state w) ≠ None ∧ isConnected (state w) = true
   ∧ "B" ≠ "" ∧ "B" ≠ selectedSource (state w))
  ∧ selectedSource (state w') = "B"
  ∧ selectedSourceRef (state w') = "B"
  ∧ currentSourceUrl (state w') = currentSourceUrl (state w)
  ∧ inflight w' = <[nextId w := AwaitGetInputSettings "B"]> (inflight w)
  ∧ trace w' = trace w ++
      [Call (GetInputSettings "B") (AwaitGetInputSettings "B")].
Proof.
  split; [by vm_compute|].
  apply (select_fetches_new_source showingA "B"); by vm_compute.
Defined.

(** X8.  Changing the selection to none, or to anything while not
    connected, updates the selection and the ref, clears the active URL
    and sends nothing. *)
Theorem select_none_or_offline_clears (w : World) (value : string) :
  value ≠ selectedSource (state w) →
  value = "" ∨ isConnected (state w) = false →
  let w' := step w (ChangeSelect value) in
  selectedSource (state w') = value
  ∧ selectedSourceRef (state w') = value
  ∧ currentSourceUrl (state w') = None
  ∧ inflight w' = inflight w
  ∧ trace w' = trace w.
Proof.
  intros Hne Hor.
  assert (Hu : useEffects (state w) (setSelectedSource value (state w)).1.2
               = ((), (setCurrentSourceUrl None
                         (setSelectedSourceRef value
                            (setSelectedSource value (state w)).1.2).1.2).1.2, [])).
  { unfold useEffects, fetchActiveState. task.
    rewrite (bool_decide_eq_false_2 (selectedSource (state w) = value)) by done.
    task. destruct Hor as [->| ->]; [done|]. by rewrite andb_false_r. }
  cbn zeta.
  rewrite (step_run w (ChangeSelect value) _ [] _ _ eq_refl Hu). cbn.
  by rewrite app_nil_r.
Qed.

Lemma select_none_or_offline_clears_witness :
  let w := lostAB in
  let w' := step w (ChangeSelect "B") in
  ("B" ≠ selectedSource (state w)
   ∧ ("B" = "" ∨ isConnected (state w) = false))
  ∧ selectedSource (state w') = "B"
  ∧ selectedSourceRef (state w') = "B"
  ∧ currentSourceUrl (state w') = None
  ∧ inflight w' = inflight w
  ∧ trace w' = trace w.
Proof.
  split; [split; [by vm_compute | right; by vm_compute]|].
  apply (select_none_or_offline_clears lostAB "B");
    [by vm_compute | right; by vm_compute].
Defined.

(** X9.  Choosing the source that is already selected does nothing: no
    state changes and the settings are not fetched again. *)
Theorem select_same_is_noop (w : World) :
  step w (ChangeSelect (selectedSource (state w))) = w.
Proof.
  rewrite (step_quiet w _ (state w) []); [| |done|done].
  - rewrite app_nil_r. by destruct w.
  - cbn. by destruct (state w).
Qed.

(** X10.  While the component is not connected, a click on refresh and a
    click on a link change nothing and send nothing. *)
Theorem offline_clicks_send_nothing (w : World) (link : LinkItem) :
  isConnected (state w) = false →
  step w ClickRefresh = w ∧ step w (ClickLink link) = w.
Proof.
  intros Hc. split.
  - rewrite (step_quiet w _ (state w) []); [| |done|done].
    + rewrite app_nil_r. by destruct w.
    + cbn. unfold fetchSources. task. by rewrite Hc, orb_true_r.
  - rewrite (step_quiet w _ (state w) []); [| |done|done].
    + rewrite app_nil_r. by destruct w.
    + cbn. apply switchMedia_guard. right; left. exact Hc.
Qed.

Lemma offline_clicks_send_nothing_witness :
  isConnected (state lostAB) = false
  ∧ step lostAB ClickRefresh = lostAB
  ∧ step lostAB (ClickLink linkX) = lostAB.
Proof.
  split; [by vm_compute|].
  apply (offline_clicks_send_nothing lostAB linkX). by vm_compute.
Defined.

(** X11.  A rejected [GetInputList] is logged and changes no state: the
    source list, the selection and the active URL stay as they were, and
    nothing is sent. *)
Theorem refresh_rejected_keeps_state (w : World) (rid : nat) (r : Render) (message : option string) :
  inflight w !! rid = Some (AwaitGetInputList r) →
  step w (Settle rid (Rejected message))
  = {| state := state w; inflight := delete rid (inflight w);
       nextId := nextId w;
       trace := trace w ++ [ConsoleError "Failed to fetch sources"] |}.
Proof.
  intros Hk.
  rewrite (step_quiet w _ (state w) [ConsoleError "Failed to fetch sources"]);
    [done | | done | done].
  by rewrite (handler_settle _ _ _ _ Hk).
Qed.

Lemma refresh_rejected_keeps_state_witness :
  let w := refreshingAB in
  inflight w !! 3 = Some (AwaitGetInputList (render (state connectedAB)))
  ∧ step w (Settle 3 (Rejected None))
    = {| state := state w; inflight := delete 3 (inflight w);
         nextId := nextId w;
         trace := trace w ++ [ConsoleError "Failed to fetch sources"] |}.
Proof.
  split; [by vm_compute|].
  apply (refresh_rejected_keeps_state refreshingAB 3 (render (state connectedAB)) None).
  by vm_compute.
Defined.

(** X12.  A refresh whose reply holds no input of a supported kind
    empties the source list and the selection, clears the active URL
    when something was selected, and sends nothing. *)
Theorem refresh_without_supported_inputs_clears (w : World) (rid : nat) (r : Render) (inputs : list Input) :
  inflight w !! rid = Some (AwaitGetInputList r) →
  mediaSources inputs = [] →
  let w' := step w (Settle rid (Resolved (PInputList inputs))) in
  sources (state w') = []
  ∧ selectedSource (state w') = ""
  ∧ (selectedSource (state w) ≠ "" → currentSourceUrl (state w') = None)
  ∧ inflight w' = delete rid (inflight w)
  ∧ trace w' = trace w.
Proof.
  intros Hk Hm. cbn zeta.
  assert (Hh : handler w (Settle rid (Resolved (PInputList inputs))) (state w)
               = ((), (setSelectedSource "" (setSources [] (state w)).1.2).1.2, [])).
  { rewrite (handler_settle _ _ _ _ Hk). cbn [resume].
    unfold fetchSources_resume. rewrite Hm. done. }
  destruct (decide (selectedSource (state w) = "")) as [He|Hne].
  - rewrite (step_quiet w _ _ _ Hh); [|by cbn|done]. cbn.
    by rewrite app_nil_r.
  - assert (Hu : useEffects (state w) (setSelectedSource "" (setSources [] (state w)).1.2).1.2
               = ((), (setCurrentSourceUrl None
                         (setSelectedSourceRef ""
                            (setSelectedSource "" (setSources [] (state w)).1.2).1.2).1.2).1.2, [])).
    { unfold useEffects. task.
      by rewrite (bool_decide_eq_false_2 (selectedSource (state w) = "")). }
    rewrite (step_run w _ _ _ _ _ Hh Hu). cbn. by rewrite app_nil_r.
Qed.

Lemma refresh_without_supported_inputs_clears_witness :
  let w := refreshingAB in
  let inputs := [mkInput "Mic" (Some "wasapi_input_capture"); mkInput "Gone" None] in
  let w' := step w (Settle 3 (Resolved (PInputList inputs))) in
  (inflight w !! 3 = Some (AwaitGetInputList (render (state connectedAB)))
   ∧ mediaSources inputs = [])
  ∧ sources (state w') = []
  ∧ selectedSource (state w') = ""
  ∧ (selectedSource (state w) ≠ "" → currentSourceUrl (state w') = None)
  ∧ inflight w' = delete 3 (inflight w)
  ∧ trace w' = trace w.
Proof.
  split; [by vm_compute|].
  apply (refresh_without_supported_inputs_clears refreshingAB 3
           (render (state connectedAB))); by vm_compute.
Defined.

(** X13.  Replies are applied even after the connection is gone: while
    the component is not connected, a resolved [SetInputSettings] still
    sets the active URL to its link's URL, and a resolved
    [GetInputSettings] to the URL it reports. *)
Theorem late_replies_applied_offline (w : World) (rid : nat) :
  isConnected (state w) = false →
  (∀ link v, inflight w !! rid = Some (AwaitSetInputSettings link) →
     let w' := step w (Settle rid (Resolved v)) in
     isConnected (state w') = false
     ∧ currentSourceUrl (state w') = Some (url link))
  ∧ (∀ n settings k, inflight w !! rid = Some (AwaitGetInputSettings n) →
     let w' := step w (Settle rid (Resolved (PInputSettings settings k))) in
     isConnected (state w') = false
     ∧ currentSourceUrl (state w') = Some (activeUrl settings k)).
Proof.
  intros Hc. split.
  - intros link v Hk. cbn zeta. by rewrite (settle_switch _ _ _ _ Hk).
  - intros n settings k Hk. cbn zeta. by rewrite (settle_fetchActiveState _ _ _ _ Hk).
Qed.

Lemma late_replies_applied_offline_witness :
  let w := lostWhileSwitching in
  (isConnected (state w) = false
   ∧ inflight w !! 3 = Some (AwaitSetInputSettings linkX)
   ∧ currentSourceUrl (state w) = None)
  ∧ (∀ link v, inflight w !! 3 = Some (AwaitSetInputSettings link) →
     let w' := step w (Settle 3 (Resolved v)) in
     isConnected (state w') = false
     ∧ currentSourceUrl (state w') = Some (url link))
  ∧ (∀ n settings k, inflight w !! 3 = Some (AwaitGetInputSettings n) →
     let w' := step w (Settle 3 (Resolved (PInputSettings settings k))) in
     isConnected (state w') = false
     ∧ currentSourceUrl (state w') = Some (activeUrl settings k)).
Proof.
  split; [by vm_compute|].
  apply (late_replies_applied_offline lostWhileSwitching 3). by vm_compute.
Defined.

(** X14.  A click on the button while connected only sends [disconnect]:
    the component stays connected until the reply, and stays so for good
    when the request is rejected. *)
Theorem disconnect_waits_for_reply (w : World) :
  obs (state w) ≠ None → isConnected (state w) = true →
  let w1 := step w ClickConnectButton in
  state w1 = state w
  ∧ inflight w1 = <[nextId w := AwaitDisconnect]> (inflight w)
  ∧ trace w1 = trace w ++ [Call Disconnect AwaitDisconnect]
  ∧ (∀ message, state (step w1 (Settle (nextId w) (Rejected message))) = state w).
Proof.
  intros Ho Hc.
  assert (Hh : handler w ClickConnectButton (state w)
               = ((), state w, [Call Disconnect AwaitDisconnect])).
  { cbn. rewrite Hc. unfold disconnectOBS. task.
    by rewrite (bool_decide_eq_false_2 _ Ho). }
  cbn zeta. rewrite (step_quiet w _ _ _ Hh) by done. cbn.
  repeat split. intros message.
  match goal with |- context [step ?w' _] => set (w1 := w') end.
  assert (Hk : inflight w1 !! nextId w = Some AwaitDisconnect)
    by apply lookup_insert_eq.
  rewrite (step_quiet w1 _ (state w) []); [done | | done | done].
  by rewrite (handler_settle _ _ _ _ Hk).
Qed.

Lemma disconnect_waits_for_reply_witness :
  let w := showingA in
  let w1 := step w ClickConnectButton in
  (obs (state w) ≠ None ∧ isConnected (state w) = true)
  ∧ state w1 = state w
  ∧ inflight w1 = <[nextId w := AwaitDisconnect]> (inflight w)
  ∧ trace w1 = trace w ++ [Call Disconnect AwaitDisconnect]
  ∧ (∀ message, state (step w1 (Settle (nextId w) (Rejected message))) = state w).
Proof.
  split; [by vm_compute|].
  apply (disconnect_waits_for_reply showingA); by vm_compute.
Defined.

(** ** Listeners, round trip and source list *)

Lemma prefix_listeners_handler (w : World) (e : Event) (ls : list Render) :
  preserves (λ st, ls `prefix_of` listenersOf st) (handler w e).
Proof.
  assert (Hleaf : ∀ t : Task unit,
            (∀ st, obs (t st).1.2 = obs st) →
            preserves (λ st, ls `prefix_of` listenersOf st) t).
  { intros t Ht st H. unfold listenersOf. by rewrite Ht. }
  destruct e as [| |value|link| |n|rid reply]; cbn [handler].
  - destruct (isConnected (state w)).
    + apply Hleaf. intros st. unfold disconnectOBS. task. by branch.
    + intros st H. unfold listenersOf in *. unfold connectToOBS. task.
      destruct (obs st) as [l|]; by task.
  - apply Hleaf. intros st. unfold fetchSources. task. by branch.
  - by apply Hleaf.
  - apply Hleaf. intros st. unfold switchMedia, fetchSources.
    destruct (findSource _ _); task; by branch.
  - apply preserves_forEach. intros _. by apply Hleaf.
  - apply preserves_forEach. intros r. apply Hleaf. intros st.
    unfold onInputSettingsChanged, updateActiveStateIfMatches, fetchActiveState.
    task. by branch.
  - destruct (inflight w !! rid) as [k|]; [|by apply Hleaf].
    destruct k as [r| |n|r|link]; cbn [resume].
    + destruct reply as [v|message]; [|by apply Hleaf].
      intros st H. unfold listenersOf in *.
      unfold connectToOBS_resume, addListeners, fetchSources. task.
      destruct (obs st) as [l|]; task; branch; try done.
      all: by apply prefix_app_r.
    + apply Hleaf. intros st. by destruct reply.
    + apply Hleaf. intros st. by destruct reply as [[]|].
    + apply Hleaf. intros st. unfold fetchSources_resume.
      destruct reply as [[| inputs |]|]; try done.
      task. destruct (mediaSources inputs); task; by branch.
    + apply Hleaf. intros st. by destruct reply.
Qed.

(** X15.  No event removes a listener: the listeners before an event are
    still there after it, in the same order, so every successful
    reconnect adds one more pair to those of the earlier connections. *)
Theorem listeners_never_removed (w : World) (e : Event) :
  listenersOf (state w) `prefix_of` listenersOf (state (step w e)).
Proof.
  destruct (step_frame w e) as (_ & _ & _ & Ho & _).
  unfold listenersOf at 2. rewrite Ho.
  by apply (prefix_listeners_handler w e (listenersOf (state w)) (state w)).
Qed.

Lemma echoes_lookup (reply : gmap string string) (sent : gmap string JSValue) k s :
  echoes reply sent → sent !! k = Some (JStr s) → reply !! k = Some s.
Proof.
  intros He Hk. apply (proj1 (map_subseteq_spec _ _) He).
  by rewrite lookup_omap, Hk.
Qed.

(** X16.  What [switchMedia] writes, [fetchActiveState] reads back: for a
    source of any kind and a link with a non-empty URL, settings that
    hold the string fields sent by the switch, whatever else they hold,
    are read as the link's URL. *)
Theorem switch_then_reconcile_agrees
    (source : OBSSource) (link : LinkItem) (reply : gmap string string) :
  url link ≠ "" → echoes reply (settingsFor source link) →
  activeUrl reply (kind source) = url link.
Proof.
  intros Hu He. unfold settingsFor in He. unfold activeUrl.
  destruct (decide (kind source = "browser_source")) as [Hb|Hb].
  - rewrite Hb in *. cbn in He. cbn.
    rewrite (echoes_lookup _ _ "url" (url link) He) by by simplify_map_eq.
    cbn. by rewrite (bool_decide_eq_false_2 _ Hu).
  - rewrite (bool_decide_eq_false_2 _ Hb) in *.
    assert (Hl : reply !! "local_file" = Some (url link)).
    { apply (echoes_lookup _ _ _ _ He). destruct (_ || _); by simplify_map_eq. }
    rewrite Hl. cbn. by rewrite (bool_decide_eq_false_2 _ Hu).
Qed.

Lemma switch_then_reconcile_agrees_witness :
  let source := mkSource "A" "ffmpeg_source" in
  let reply : gmap string string :=
    {[ "local_file" := "rtmp://x"; "url" := "https://old"; "input" := "" ]} in
  (url linkX ≠ "" ∧ echoes reply (settingsFor source linkX))
  ∧ activeUrl reply (kind source) = url linkX.
Proof.
  split; [split; [done | apply (bool_decide_unpack _); by vm_compute]|].
  apply (switch_then_reconcile_agrees (mkSource "A" "ffmpeg_source") linkX);
    [done | apply (bool_decide_unpack _); by vm_compute].
Defined.

(** X17.  The sources kept from a [GetInputList] reply are exactly its
    inputs whose kind is present and supported, each with its name and
    kind. *)
Theorem mediaSources_exactly_supported (inputs : list Input) (s : OBSSource) :
  s ∈ mediaSources inputs ↔
  ∃ input, input ∈ inputs ∧ inputName input = name s
           ∧ inputKind input = Some (kind s) ∧ kind s ∈ SUPPORTED_KINDS.
Proof.
  unfold mediaSources. rewrite list_elem_of_fmap. split.
  - intros (input & -> & Hin). apply list_elem_of_filter in Hin as [Hs Hin].
    apply supported_spec in Hs as (k & Hk & Hsup).
    exists input. unfold toSource. cbn. by rewrite Hk.
  - intros (input & Hin & Hn & Hk & Hsup). exists input. split.
    + destruct s as [n k]. unfold toSource. cbn in *. by rewrite Hn, Hk.
    + apply list_elem_of_filter. split; [|done].
      apply supported_spec. eauto.
Qed.

(** X18.  The sources are kept in the order of the reply: their names
    are a subsequence of the names in the reply, and the sources of two
    lists put end to end are those of the first followed by those of
    the second. *)
Theorem mediaSources_keeps_order (inputs more : list Input) :
  name <$> mediaSources inputs `sublist_of` inputName <$> inputs
  ∧ mediaSources (inputs ++ more) = mediaSources inputs ++ mediaSources more.
Proof.
  unfold mediaSources. split.
  - rewrite <- list_fmap_compose.
    change (name ∘ toSource) with inputName.
    apply fmap_sublist, sublist_filter.
  - by rewrite filter_app, fmap_app.
Qed.

(** ** Link management *)

Lemma isBlank_nonempty (s : string) : isBlank s = false → s ≠ "".
Proof. by intros H ->. Qed.

(** X19.  [handleAddLink] does nothing when the name or the URL is blank;
    otherwise it appends one link, with the drawn id and the name and URL
    exactly as typed (both then non-empty), after the existing links,
    and empties the two fields. *)
Theorem handleAddLink_appends (newId : string) (s : LinkState) :
  let s' := handleAddLink newId s in
  (isBlank (tempName s) = true ∨ isBlank (tempUrl s) = true → s' = s)
  ∧ (isBlank (tempName s) = false → isBlank (tempUrl s) = false →
     links s' = links s ++ [mkLink newId (tempName s) (tempUrl s)]
     ∧ tempName s ≠ "" ∧ tempUrl s ≠ ""
     ∧ tempName s' = "" ∧ tempUrl s' = ""
     ∧ editingLinkId s' = editingLinkId s).
Proof.
  cbn zeta. unfold handleAddLink. split.
  - intros [-> | ->]; by rewrite ?orb_true_r.
  - intros Hn Hu. rewrite Hn, Hu. cbn.
    repeat split; by apply isBlank_nonempty.
Qed.

(** X20.  [handleDeleteLink] keeps exactly the links whose id differs
    from the given one, in their order; deleting again changes nothing,
    and neither does deleting an id no link has. *)
Theorem handleDeleteLink_removes (i : string) (s : LinkState) :
  let s' := handleDeleteLink i s in
  (∀ l, l ∈ links s' ↔ l ∈ links s ∧ id l ≠ i)
  ∧ links s' `sublist_of` links s
  ∧ handleDeleteLink i s' = s'
  ∧ (i ∉ id <$> links s → s' = s).
Proof.
  cbn zeta. unfold handleDeleteLink. cbn. split; [|split; [|split]].
  - intros l. rewrite list_elem_of_filter. tauto.
  - apply sublist_filter.
  - f_equal. rewrite list_filter_filter. apply list_filter_iff. tauto.
  - intros Hi. destruct s as [ls e n u]. cbn in *. f_equal.
    induction ls as [|l ls IH]; [done|].
    rewrite fmap_cons, not_elem_of_cons in Hi. destruct Hi as [Hne Hi].
    rewrite filter_cons_True by done. by rewrite IH.
Qed.

Lemma saveEditing_at (s : LinkState) (i : nat) (l : LinkItem) :
  NoDup (id <$> links s) → links s !! i = Some l →
  editingLinkId s = Some (id l) →
  links (saveEditing s) = <[i := mkLink (id l) (tempName s) (tempUrl s)]> (links s).
Proof.
  intros Hnd Hi He. unfold saveEditing. cbn. rewrite He.
  apply list_eq. intros j. rewrite list_lookup_fmap.
  destruct (decide (i = j)) as [<-|Hne].
  - rewrite list_lookup_insert_eq by by eapply lookup_lt_Some.
    rewrite Hi. cbn. by rewrite bool_decide_eq_true_2.
  - rewrite list_lookup_insert_ne by done.
    destruct (links s !! j) as [l'|] eqn:Hj; [|done]. cbn.
    rewrite bool_decide_eq_false_2; [done|].
    intros [= Heq]. apply Hne.
    apply (NoDup_lookup (id <$> links s) i j (id l)); [done | |].
    + by rewrite list_lookup_fmap, Hi.
    + rewrite list_lookup_fmap, Hj. cbn. by rewrite Heq.
Qed.

(** X21.  With unique ids, editing a link (start, type a name and a URL,
    save) replaces that link, at its position, by one with the same id
    and the typed name and URL, and leaves every other link as it was.
    Nothing checks that the typed fields are not blank. *)
Theorem edit_replaces_one_link (s : LinkState) (i : nat) (l : LinkItem) (n u : string) :
  NoDup (id <$> links s) → links s !! i = Some l →
  links (saveEditing (typeUrl u (typeName n (startEditing l s))))
  = <[i := mkLink (id l) n u]> (links s).
Proof.
  intros Hnd Hi.
  by rewrite (saveEditing_at (typeUrl u (typeName n (startEditing l s))) i l).
Qed.

Lemma edit_replaces_one_link_witness :
  (NoDup (id <$> links linksAB)
   ∧ links linksAB !! 1 = Some (mkLink "b2" "Clip" "C:\clip.mp4"))
  ∧ links (saveEditing (typeUrl "" (typeName "Clip 2"
             (startEditing (mkLink "b2" "Clip" "C:\clip.mp4") linksAB))))
    = <[1 := mkLink (id (mkLink "b2" "Clip" "C:\clip.mp4")) "Clip 2" ""]>
        (links linksAB).
Proof.
  split; [split; [apply (bool_decide_unpack _); by vm_compute | done]|].
  apply (edit_replaces_one_link linksAB 1 (mkLink "b2" "Clip" "C:\clip.mp4"));
    [apply (bool_decide_unpack _); by vm_compute | done].
Defined.

(** X22.  With unique ids, starting to edit a link of the list and saving
    without typing leaves the list of links as it was. *)
Theorem edit_without_change_is_identity (s : LinkState) (l : LinkItem) :
  NoDup (id <$> links s) → l ∈ links s →
  links (saveEditing (startEditing l s)) = links s.
Proof.
  intros Hnd [i Hi]%list_elem_of_lookup.
  rewrite (saveEditing_at (startEditing l s) i l) by done.
  cbn. destruct l. by apply list_insert_id.
Qed.

Lemma edit_without_change_is_identity_witness :
  (NoDup (id <$> links linksAB)
   ∧ mkLink "a1" "Cam" "rtmp://cam" ∈ links linksAB)
  ∧ links (saveEditing (startEditing (mkLink "a1" "Cam" "rtmp://cam") linksAB))
    = links linksAB.
Proof.
  split; [split; [apply (bool_decide_unpack _); by vm_compute | by left]|].
  apply (edit_without_change_is_identity linksAB (mkLink "a1" "Cam" "rtmp://cam"));
    [apply (bool_decide_unpack _); by vm_compute | by left].
Defined.

(** X23.  [saveEditing] never changes the ids of the links, their number
    or their order, and always leaves editing mode; when no link is
    being edited, or the edited link is no longer in the list, it leaves
    the links as they were. *)
Theorem saveEditing_keeps_ids (s : LinkState) :
  id <$> links (saveEditing s) = id <$> links s
  ∧ editingLinkId (saveEditing s) = None
  ∧ ((∀ i, editingLinkId s = Some i → i ∉ id <$> links s) →
     links (saveEditing s) = links s).
Proof.
  unfold saveEditing. cbn. split; [|split; [done|]].
  - rewrite <- list_fmap_compose. apply list_fmap_ext.
    intros j l _. cbn. by case_bool_decide.
  - intros He. rewrite <- (list_fmap_id (links s)) at 2.
    apply list_fmap_ext. intros j l Hj. cbn.
    rewrite bool_decide_eq_false_2; [done|].
    intros Heq. apply (He (id l)); [done|].
    apply list_elem_of_fmap. exists l. split; [done|].
    by apply list_elem_of_lookup_2 in Hj.
Qed.

(** X24.  Unique ids stay unique: adding a link keeps them unique when
    the drawn id is not in use, and deleting and saving always do. *)
Theorem unique_ids_kept (s : LinkState) (i : string) :
  NoDup (id <$> links s) →
  (i ∉ id <$> links s → NoDup (id <$> links (handleAddLink i s)))
  ∧ NoDup (id <$> links (handleDeleteLink i s))
  ∧ NoDup (id <$> links (saveEditing s)).
Proof.
  intros Hnd. split; [|split].
  - intros Hi. unfold handleAddLink. destruct (_ || _); [done|]. cbn.
    rewrite fmap_app. apply NoDup_app. split; [done|]. split.
    + intros x Hx [->|[]%elem_of_nil]%elem_of_cons. done.
    + apply NoDup_singleton.
  - cbn. apply (sublist_NoDup _ (id <$> links s)); [exact Hnd|].
    apply fmap_sublist, sublist_filter.
  - destruct (saveEditing_keeps_ids s) as [-> _]. done.
Qed.

Lemma unique_ids_kept_witness :
  NoDup (id <$> links linksAB)
  ∧ ("c3" ∉ id <$> links linksAB → NoDup (id <$> links (handleAddLink "c3" linksAB)))
  ∧ NoDup (id <$> links (handleDeleteLink "c3" linksAB))
  ∧ NoDup (id <$> links (saveEditing linksAB)).
Proof.
  split; [apply (bool_decide_unpack _); by vm_compute|].
  apply (unique_ids_kept linksAB "c3").
  apply (bool_decide_unpack _); by vm_compute.
Defined.
